(** * searu-dash: the session and request layer

    A shallow embedding of [src/lib/api.ts] (the request client),
    [src/routes/users/login.ts] (the login endpoint) and the session hook
    ([getSession]), together with executable models of the JavaScript
    primitives they call: [JSON.parse], [JSON.stringify], template-literal
    string conversion, the [cookie] package's [parse],
    [decodeURIComponent], and Node's [Buffer.from(s, 'base64')] and
    [Buffer.toString('utf-8')].

    JavaScript strings are sequences of UTF-16 code units; they are modelled
    as lists of [N].  JavaScript numbers are IEEE-754 binary64 values; they
    are modelled with the standard library's [spec_float]. *)

From Stdlib Require Import NArith ZArith List Bool String Ascii Lia.
From Stdlib Require Import DecimalString.
From Stdlib Require Import Floats.SpecFloat.
Import ListNotations.

Set Warnings "-register-all".

Local Open Scope N_scope.

(* ================================================================== *)
(** ** JavaScript strings *)

Definition code_unit := N.
Definition jsstring := list code_unit.

(** [js "abc"] is the JavaScript string literal ['abc']. *)
Definition js (s : string) : jsstring :=
  map N_of_ascii (list_ascii_of_string s).

(** [jsq] is [js] with every apostrophe standing for a double quote, so that
    JSON texts can be written down: [jsq "{'a':1}"] is the text [{"a":1}]. *)
Definition jsq (s : string) : jsstring :=
  map (fun c => if c =? 39 then 34 else c) (js s).

Fixpoint str_eqb (a b : jsstring) : bool :=
  match a, b with
  | [], [] => true
  | x :: a', y :: b' => (x =? y) && str_eqb a' b'
  | _, _ => false
  end.

(** [a.join(sep)] on a list of strings. *)
Fixpoint join (sep : jsstring) (l : list jsstring) : jsstring :=
  match l with
  | [] => []
  | [x] => x
  | x :: rest => x ++ sep ++ join sep rest
  end.

(** The decimal digits of a natural number, as a string. *)
Definition decimal (n : N) : jsstring :=
  js (NilZero.string_of_uint (N.to_uint n)).

(** Property lookup and assignment on an object whose own properties are
    kept in insertion order: [o[k]] and [o[k] = v]. *)
Fixpoint lookup {V : Type} (k : jsstring) (o : list (jsstring * V))
  : option V :=
  match o with
  | [] => None
  | (k', v) :: rest => if str_eqb k k' then Some v else lookup k rest
  end.

Fixpoint obj_set {V : Type} (o : list (jsstring * V)) (k : jsstring) (v : V)
  : list (jsstring * V) :=
  match o with
  | [] => [(k, v)]
  | (k', v') :: rest =>
      if str_eqb k k' then (k', v) :: rest else (k', v') :: obj_set rest k v
  end.

(* ================================================================== *)
(** ** JavaScript numbers (IEEE-754 binary64) *)

Module Number.

Definition number := spec_float.

Definition prec : Z := 53.
Definition emax : Z := 1024.

(** The Number value of the decimal [(-1)^neg * digits * 10^exp10],
    rounded to nearest, ties to even. *)
Definition of_decimal (neg : bool) (digits : N) (exp10 : Z) : number :=
  match digits with
  | N0 => S754_zero neg
  | Npos m =>
      if (0 <=? exp10)%Z then
        binary_normalize prec emax
          (cond_Zopp neg (Zpos m * 10 ^ exp10)) 0 false
      else
        SFdiv prec emax
          (S754_finite neg m 0)
          (S754_finite false (Z.to_pos (10 ^ (- exp10))) 0)
  end.

Definition eqb (x y : number) : bool :=
  match x, y with
  | S754_zero _, S754_zero _ => true
  | S754_infinity a, S754_infinity b => Bool.eqb a b
  | S754_finite a m e, S754_finite b m' e' =>
      Bool.eqb a b && Pos.eqb m m' && Z.eqb e e'
  | _, _ => false
  end.

(** [+0], [-0] and [NaN] are the falsy numbers. *)
Definition is_falsy (x : number) : bool :=
  match x with
  | S754_zero _ | S754_nan => true
  | _ => false
  end.

Definition is_finite (x : number) : bool :=
  match x with
  | S754_zero _ | S754_finite _ _ _ => true
  | _ => false
  end.

(** *** Number::toString, radix 10 *)

(** The least [j' >= j] with [q <= p * 10^(j' - j)], searching [fuel]
    candidates. *)
Fixpoint scale_up (fuel : nat) (p q : Z) (j : Z) : Z :=
  match fuel with
  | O => j
  | S f => if (q <=? p)%Z then j else scale_up f (p * 10) q (j + 1)
  end.

(** The number of decimal digits of a positive integer. *)
Fixpoint count_digits (fuel : nat) (z : Z) : Z :=
  match fuel with
  | O => 1
  | S f => if (z <? 10)%Z then 1 else (1 + count_digits f (z / 10))%Z
  end.

(** [n] with [10^(n-1) <= p/q < 10^n], for positive [p] and [q]. *)
Definition decimal_exponent (p q : Z) : Z :=
  if (q <=? p)%Z then count_digits (Z.to_nat (Z.log2 p)) (p / q)
  else (1 - scale_up 400 (p * 10) q 1)%Z.

(** For [k] significant digits and a positive [x = p/q]: the [k]-digit
    integers just below and just above [p/q * 10^(k-n)], and whichever of
    them denotes [x]; of two, the nearer one, and of two equally near,
    the even one. *)
Definition candidate (x : number) (p q n k : Z) : option (N * Z) :=
  let sh := (k - n)%Z in
  let a := if (0 <=? sh)%Z then (p * 10 ^ sh)%Z else p in
  let b := if (0 <=? sh)%Z then q else (q * 10 ^ (- sh))%Z in
  let lo := (a / b)%Z in
  let hi := (lo + 1)%Z in
  let ok s := eqb (of_decimal false (Z.to_N s) (n - k)) x in
  let pick s :=
    if (s =? 10 ^ k)%Z then Some (Z.to_N (10 ^ (k - 1)), (n + 1)%Z)
    else Some (Z.to_N s, n) in
  match ok lo, ok hi with
  | true, false => pick lo
  | false, true => pick hi
  | true, true =>
      match (a - lo * b ?= hi * b - a)%Z with
      | Lt => pick lo
      | Gt => pick hi
      | Eq => if Z.even lo then pick lo else pick hi
      end
  | false, false => None
  end.

(** The digits and the decimal exponent for the first count of digits in
    [ks] that has a candidate; seventeen digits always suffice. *)
Fixpoint shortest (x : number) (p q n : Z) (ks : list Z) : N * Z :=
  match ks with
  | [] => (Z.to_N (p * 10 ^ (17 - n) / q), n)
  | k :: rest =>
      match candidate x p q n k with
      | Some r => r
      | None => shortest x p q n rest
      end
  end.

Definition zeros (n : Z) : jsstring := repeat 48 (Z.to_nat n).

(** The digits [s] (there are [k] of them) placed at decimal exponent
    [n]: the value is [s * 10^(n-k)]. *)
Definition layout (s : N) (n : Z) : jsstring :=
  let ds := decimal s in
  let k := Z.of_nat (List.length ds) in
  if ((k <=? n) && (n <=? 21))%Z then ds ++ zeros (n - k)
  else if ((0 <? n) && (n <=? 21))%Z then
    firstn (Z.to_nat n) ds ++ [46] ++ skipn (Z.to_nat n) ds
  else if ((-6 <? n) && (n <=? 0))%Z then
    [48; 46] ++ zeros (- n) ++ ds
  else
    let e := (n - 1)%Z in
    let sign := if (e <? 0)%Z then 45 else 43 in
    let mant := if (k =? 1)%Z then ds
                else firstn 1 ds ++ [46] ++ skipn 1 ds in
    mant ++ [101; sign] ++ decimal (Z.to_N (Z.abs e)).

Definition to_string (x : number) : jsstring :=
  match x with
  | S754_nan => js "NaN"
  | S754_zero _ => js "0"
  | S754_infinity false => js "Infinity"
  | S754_infinity true => js "-Infinity"
  | S754_finite neg m e =>
      let p := if (0 <=? e)%Z then (Zpos m * 2 ^ e)%Z else Zpos m in
      let q := if (0 <=? e)%Z then 1%Z else (2 ^ (- e))%Z in
      let n := decimal_exponent p q in
      let '(s, n') :=
        shortest (S754_finite false m e) p q n
          [1; 2; 3; 4; 5; 6; 7; 8; 9; 10; 11; 12; 13; 14; 15; 16; 17]%Z in
      (if neg then [45] else []) ++ layout s n'
  end.

End Number.

(* ================================================================== *)
(** ** JavaScript values *)

(** The values [JSON.parse] produces and [JSON.stringify] accepts.
    [undefined] is not one of them: where the code can see [undefined]
    (an omitted argument, a missing property) the model uses [option],
    with [None] for [undefined].  An object keeps its own properties in
    insertion order. *)
Inductive JSValue :=
| JNull
| JBool (b : bool)
| JNumber (x : Number.number)
| JString (s : jsstring)
| JArray (elems : list JSValue)
| JObject (props : list (jsstring * JSValue)).

(** ToBoolean. *)
Definition truthy (v : JSValue) : bool :=
  match v with
  | JNull => false
  | JBool b => b
  | JNumber x => negb (Number.is_falsy x)
  | JString s => match s with [] => false | _ => true end
  | JArray _ | JObject _ => true
  end.

(** What a JavaScript operation does: it returns or it throws.
    [FetchError] stands for whatever a failed network call rejects
    with. *)
Inductive JSError := TypeError | SyntaxError | URIError | FetchError.

Inductive outcome (A : Type) :=
| Returned (a : A)
| Thrown (e : JSError).
Arguments Returned {A} a.
Arguments Thrown {A} e.

(** Operations done in order: all their values, or the first error. *)
Fixpoint all_returned {A : Type} (l : list (outcome A)) : outcome (list A) :=
  match l with
  | [] => Returned []
  | Returned a :: rest =>
      match all_returned rest with
      | Returned values => Returned (a :: values)
      | Thrown e => Thrown e
      end
  | Thrown e :: _ => Thrown e
  end.

(** ToString, as a template literal applies it to a substituted value.
    An array is joined with commas, its elements converted in turn and
    [null] elements giving the empty string.  An object is converted
    through its [toString] and [valueOf] methods: the properties of a
    value of this type are never functions, so an object with a property
    [toString] of its own has no usable method ([valueOf], its own or the
    inherited one, gives no primitive either) and the conversion throws a
    TypeError; any other object inherits [Object.prototype.toString] and
    gives ["[object Object]"]. *)
Fixpoint to_string (v : JSValue) : outcome jsstring :=
  match v with
  | JNull => Returned (js "null")
  | JBool true => Returned (js "true")
  | JBool false => Returned (js "false")
  | JNumber x => Returned (Number.to_string x)
  | JString s => Returned s
  | JArray elems =>
      match all_returned
              (map (fun e => match e with
                             | JNull => Returned []
                             | _ => to_string e
                             end) elems) with
      | Returned parts => Returned (join [44] parts)
      | Thrown e => Thrown e
      end
  | JObject props =>
      match lookup (js "toString") props with
      | Some _ => Thrown TypeError
      | None => Returned (js "[object Object]")
      end
  end.

(** The text a template literal substitutes for [v], which may be
    [undefined]. *)
Definition template (v : option JSValue) : outcome jsstring :=
  match v with
  | None => Returned (js "undefined")
  | Some v => to_string v
  end.

(** [v['token']].  Reading a property of [null] throws a TypeError.  On an
    object it is the own property [token] when there is one; neither
    [Object.prototype] nor the prototypes of strings, numbers, booleans and
    arrays have a [token] property, and [token] is not an index, so every
    other read gives [undefined]. *)
Definition get_token (v : JSValue) : outcome (option JSValue) :=
  match v with
  | JNull => Thrown TypeError
  | JObject props => Returned (lookup (js "token") props)
  | _ => Returned None
  end.

(* ================================================================== *)
(** ** UTF-8 and UTF-16 *)

Module Unicode.

(** The UTF-16 code units of a code point. *)
Definition utf16 (cp : N) : jsstring :=
  if cp <? 65536 then [cp]
  else [55296 + N.shiftr (cp - 65536) 10; 56320 + N.land (cp - 65536) 1023].

Definition is_high_surrogate (c : N) : bool := (55296 <=? c) && (c <=? 56319).
Definition is_low_surrogate (c : N) : bool := (56320 <=? c) && (c <=? 57343).

(** The UTF-8 bytes of a code point. *)
Definition utf8 (cp : N) : list N :=
  if cp <? 128 then [cp]
  else if cp <? 2048 then
    [192 + N.shiftr cp 6; 128 + N.land cp 63]
  else if cp <? 65536 then
    [224 + N.shiftr cp 12; 128 + N.land (N.shiftr cp 6) 63;
     128 + N.land cp 63]
  else
    [240 + N.shiftr cp 18; 128 + N.land (N.shiftr cp 12) 63;
     128 + N.land (N.shiftr cp 6) 63; 128 + N.land cp 63].

(** Encoding a JavaScript string as UTF-8.  A surrogate pair is one code
    point; a surrogate on its own is written as U+FFFD. *)
Fixpoint utf8_encode (s : jsstring) : list N :=
  match s with
  | [] => []
  | c :: rest =>
      if is_high_surrogate c then
        match rest with
        | d :: rest' =>
            if is_low_surrogate d then
              utf8 (65536 + N.shiftl (c - 55296) 10 + (d - 56320))
              ++ utf8_encode rest'
            else utf8 65533 ++ utf8_encode rest
        | [] => utf8 65533
        end
      else if is_low_surrogate c then utf8 65533 ++ utf8_encode rest
      else utf8 c ++ utf8_encode rest
  end.

Definition is_continuation (b : N) : bool := (128 <=? b) && (b <=? 191).

(** The bounds a lead byte puts on the byte after it (0xE0, 0xED, 0xF0
    and 0xF4 narrow them, which excludes overlong forms, surrogates and
    code points past U+10FFFF). *)
Definition second_lower (b0 : N) : N :=
  if b0 =? 224 then 160 else if b0 =? 240 then 144 else 128.
Definition second_upper (b0 : N) : N :=
  if b0 =? 237 then 159 else if b0 =? 244 then 143 else 191.
Definition is_second (b0 b1 : N) : bool :=
  (second_lower b0 <=? b1) && (b1 <=? second_upper b0).

Definition cp2 (b0 b1 : N) : N :=
  N.lor (N.shiftl (N.land b0 31) 6) (N.land b1 63).
Definition cp3 (b0 b1 b2 : N) : N :=
  N.lor (N.shiftl (N.land b0 15) 12)
    (N.lor (N.shiftl (N.land b1 63) 6) (N.land b2 63)).
Definition cp4 (b0 b1 b2 b3 : N) : N :=
  N.lor (N.shiftl (N.land b0 7) 18)
    (N.lor (N.shiftl (N.land b1 63) 12)
       (N.lor (N.shiftl (N.land b2 63) 6) (N.land b3 63))).

Definition replacement : N := 65533.

(** Decoding bytes as UTF-8 into a JavaScript string.  Every maximal
    ill-formed run of bytes becomes one U+FFFD and decoding resumes at
    the byte that broke the sequence. *)
Fixpoint utf8_decode (bs : list N) : jsstring :=
  match bs with
  | [] => []
  | b0 :: r0 =>
      if b0 <? 128 then b0 :: utf8_decode r0
      else if (194 <=? b0) && (b0 <=? 223) then
        match r0 with
        | b1 :: r1 =>
            if is_second b0 b1 then cp2 b0 b1 :: utf8_decode r1
            else replacement :: utf8_decode r0
        | [] => [replacement]
        end
      else if (224 <=? b0) && (b0 <=? 239) then
        match r0 with
        | b1 :: r1 =>
            if is_second b0 b1 then
              match r1 with
              | b2 :: r2 =>
                  if is_continuation b2
                  then cp3 b0 b1 b2 :: utf8_decode r2
                  else replacement :: utf8_decode r1
              | [] => [replacement]
              end
            else replacement :: utf8_decode r0
        | [] => [replacement]
        end
      else if (240 <=? b0) && (b0 <=? 244) then
        match r0 with
        | b1 :: r1 =>
            if is_second b0 b1 then
              match r1 with
              | b2 :: r2 =>
                  if is_continuation b2 then
                    match r2 with
                    | b3 :: r3 =>
                        if is_continuation b3
                        then utf16 (cp4 b0 b1 b2 b3) ++ utf8_decode r3
                        else replacement :: utf8_decode r2
                    | [] => [replacement]
                    end
                  else replacement :: utf8_decode r1
              | [] => [replacement]
              end
            else replacement :: utf8_decode r0
        | [] => [replacement]
        end
      else replacement :: utf8_decode r0
  end.

(** The code point of a complete UTF-8 sequence, if it is well formed. *)
Definition code_point (octets : list N) : option N :=
  match octets with
  | [b0; b1] =>
      if (194 <=? b0) && (b0 <=? 223) && is_second b0 b1
      then Some (cp2 b0 b1) else None
  | [b0; b1; b2] =>
      if (224 <=? b0) && (b0 <=? 239) && is_second b0 b1
         && is_continuation b2
      then Some (cp3 b0 b1 b2) else None
  | [b0; b1; b2; b3] =>
      if (240 <=? b0) && (b0 <=? 244) && is_second b0 b1
         && is_continuation b2 && is_continuation b3
      then Some (cp4 b0 b1 b2 b3) else None
  | _ => None
  end.

End Unicode.

(* ================================================================== *)
(** ** JSON *)

Module JSON.

(** *** Lexical analysis

    The text is read one code unit at a time.  [lex_mode] records what
    the lexer is in the middle of. *)

Inductive token :=
| TLBrace | TRBrace | TLBracket | TRBracket | TColon | TComma
| TValue (v : JSValue).        (* a string, a number, true, false, null *)

(** Where the lexer stands inside a number literal. *)
Inductive num_state :=
| NMinus        (* after the sign: a digit must follow *)
| NZero         (* after a leading 0 *)
| NInt          (* in the integer digits *)
| NDot          (* after the point: a digit must follow *)
| NFrac         (* in the fraction digits *)
| NExp          (* after e or E: a sign or a digit must follow *)
| NExpSign      (* after the exponent's sign: a digit must follow *)
| NExpDigits.   (* in the exponent's digits *)

(** A number literal read so far: sign, the integer and fraction digits
    taken together as one integer, the number of fraction digits, and
    the exponent with its sign. *)
Record num_acc := {
  neg : bool;
  digits : N;
  frac_len : Z;
  exp_neg : bool;
  exp_digits : N
}.

Inductive lex_mode :=
| LStart
| LString (acc : jsstring)                    (* reversed *)
| LEscape (acc : jsstring)
| LHex (acc : jsstring) (todo : nat) (v : N)  (* inside \uXXXX *)
| LWord (rest : jsstring) (v : JSValue)       (* inside true, false, null *)
| LNumber (st : num_state) (a : num_acc).

Definition is_whitespace (c : N) : bool :=
  (c =? 32) || (c =? 9) || (c =? 10) || (c =? 13).

Definition digit_value (c : N) : option N :=
  if (48 <=? c) && (c <=? 57) then Some (c - 48) else None.

Definition hex_value (c : N) : option N :=
  if (48 <=? c) && (c <=? 57) then Some (c - 48)
  else if (65 <=? c) && (c <=? 70) then Some (c - 55)
  else if (97 <=? c) && (c <=? 102) then Some (c - 87)
  else None.

Definition num_value (a : num_acc) : JSValue :=
  let e := Z.of_N (exp_digits a) in
  JNumber (Number.of_decimal (neg a) (digits a)
             ((if exp_neg a then - e else e) - frac_len a)%Z).

Definition num_accepting (st : num_state) : bool :=
  match st with
  | NZero | NInt | NFrac | NExpDigits => true
  | _ => false
  end.

Definition push_digit (a : num_acc) (d : N) : num_acc :=
  {| neg := neg a; digits := digits a * 10 + d; frac_len := frac_len a;
     exp_neg := exp_neg a; exp_digits := exp_digits a |}.

Definition push_frac (a : num_acc) (d : N) : num_acc :=
  {| neg := neg a; digits := digits a * 10 + d;
     frac_len := (frac_len a + 1)%Z;
     exp_neg := exp_neg a; exp_digits := exp_digits a |}.

Definition push_exp (a : num_acc) (d : N) : num_acc :=
  {| neg := neg a; digits := digits a; frac_len := frac_len a;
     exp_neg := exp_neg a; exp_digits := exp_digits a * 10 + d |}.

Definition set_exp_neg (a : num_acc) : num_acc :=
  {| neg := neg a; digits := digits a; frac_len := frac_len a;
     exp_neg := true; exp_digits := exp_digits a |}.

(** The number literal continued by one more code unit, if it can be. *)
Definition num_step (st : num_state) (a : num_acc) (c : N)
  : option (num_state * num_acc) :=
  let is_e := (c =? 101) || (c =? 69) in
  match st, digit_value c with
  | NMinus, Some d =>
      if d =? 0 then Some (NZero, a) else Some (NInt, push_digit a d)
  | NInt, Some d => Some (NInt, push_digit a d)
  | NZero, None | NInt, None =>
      if c =? 46 then Some (NDot, a)
      else if is_e then Some (NExp, a) else None
  | NDot, Some d | NFrac, Some d => Some (NFrac, push_frac a d)
  | NFrac, None => if is_e then Some (NExp, a) else None
  | NExp, None =>
      if c =? 43 then Some (NExpSign, a)
      else if c =? 45 then Some (NExpSign, set_exp_neg a) else None
  | NExp, Some d | NExpSign, Some d | NExpDigits, Some d =>
      Some (NExpDigits, push_exp a d)
  | NMinus, None | NZero, Some _ | NDot, None
  | NExpSign, None | NExpDigits, None => None
  end.

Definition num_start (negative : bool) : num_acc :=
  {| neg := negative; digits := 0; frac_len := 0%Z;
     exp_neg := false; exp_digits := 0 |}.

(** One code unit read between tokens. *)
Definition lex_start (c : N) (out : list token)
  : option (lex_mode * list token) :=
  if is_whitespace c then Some (LStart, out)
  else if c =? 123 then Some (LStart, TLBrace :: out)
  else if c =? 125 then Some (LStart, TRBrace :: out)
  else if c =? 91 then Some (LStart, TLBracket :: out)
  else if c =? 93 then Some (LStart, TRBracket :: out)
  else if c =? 58 then Some (LStart, TColon :: out)
  else if c =? 44 then Some (LStart, TComma :: out)
  else if c =? 34 then Some (LString [], out)
  else if c =? 45 then Some (LNumber NMinus (num_start true), out)
  else if c =? 48 then Some (LNumber NZero (num_start false), out)
  else if c =? 116 then Some (LWord (js "rue") (JBool true), out)
  else if c =? 102 then Some (LWord (js "alse") (JBool false), out)
  else if c =? 110 then Some (LWord (js "ull") JNull, out)
  else match digit_value c with
       | Some d => Some (LNumber NInt (push_digit (num_start false) d), out)
       | None => None
       end.

(** One code unit read; [out] is the tokens so far, latest first. *)
Definition lex_step (m : lex_mode) (out : list token) (c : N)
  : option (lex_mode * list token) :=
  match m with
  | LStart => lex_start c out
  | LString acc =>
      if c =? 34 then Some (LStart, TValue (JString (rev acc)) :: out)
      else if c =? 92 then Some (LEscape acc, out)
      else if c <? 32 then None
      else Some (LString (c :: acc), out)
  | LEscape acc =>
      if c =? 34 then Some (LString (34 :: acc), out)
      else if c =? 92 then Some (LString (92 :: acc), out)
      else if c =? 47 then Some (LString (47 :: acc), out)
      else if c =? 98 then Some (LString (8 :: acc), out)
      else if c =? 102 then Some (LString (12 :: acc), out)
      else if c =? 110 then Some (LString (10 :: acc), out)
      else if c =? 114 then Some (LString (13 :: acc), out)
      else if c =? 116 then Some (LString (9 :: acc), out)
      else if c =? 117 then Some (LHex acc 4 0, out)
      else None
  | LHex acc todo v =>
      match hex_value c, todo with
      | Some h, 1%nat => Some (LString ((v * 16 + h) :: acc), out)
      | Some h, S n => Some (LHex acc n (v * 16 + h), out)
      | _, _ => None
      end
  | LWord rest v =>
      match rest with
      | [r] => if c =? r then Some (LStart, TValue v :: out) else None
      | r :: rest' => if c =? r then Some (LWord rest' v, out) else None
      | [] => None
      end
  | LNumber st a =>
      match num_step st a c with
      | Some (st', a') => Some (LNumber st' a', out)
      | None =>
          if num_accepting st then lex_start c (TValue (num_value a) :: out)
          else None
      end
  end.

Fixpoint lex_from (m : lex_mode) (out : list token) (s : jsstring)
  : option (list token) :=
  match s with
  | [] =>
      match m with
      | LStart => Some (rev out)
      | LNumber st a =>
          if num_accepting st then Some (rev (TValue (num_value a) :: out))
          else None
      | _ => None
      end
  | c :: rest =>
      match lex_step m out c with
      | Some (m', out') => lex_from m' out' rest
      | None => None
      end
  end.

Definition lex (s : jsstring) : option (list token) := lex_from LStart [] s.

(** *** Syntactic analysis

    The tokens drive a stack machine.  A [frame] is a container whose
    next element or member value is being read. *)

Inductive frame :=
| FArray (elems : list JSValue)                         (* reversed *)
| FObject (props : list (jsstring * JSValue)) (key : jsstring).

Inductive parse_state :=
| PValue (stk : list frame)          (* a value must follow *)
| PArrayFirst (stk : list frame)     (* after [: a value or ] *)
| PArrayNext (elems : list JSValue) (stk : list frame)   (* , or ] *)
| PObjectFirst (stk : list frame)    (* after {: a key or } *)
| PObjectKey (props : list (jsstring * JSValue)) (stk : list frame)
| PObjectColon (props : list (jsstring * JSValue)) (key : jsstring)
               (stk : list frame)
| PObjectNext (props : list (jsstring * JSValue)) (stk : list frame)
| PDone (v : JSValue).

(** A value is complete: it is the whole text's value, or the next
    element of the array being read, or the value of the member being
    read.  A member whose key is already there replaces the earlier
    value. *)
Definition complete (v : JSValue) (stk : list frame) : parse_state :=
  match stk with
  | [] => PDone v
  | FArray elems :: rest => PArrayNext (v :: elems) rest
  | FObject props key :: rest => PObjectNext (obj_set props key v) rest
  end.

Definition value_step (stk : list frame) (t : token) : option parse_state :=
  match t with
  | TValue v => Some (complete v stk)
  | TLBracket => Some (PArrayFirst stk)
  | TLBrace => Some (PObjectFirst stk)
  | _ => None
  end.

Definition parse_step (st : parse_state) (t : token) : option parse_state :=
  match st, t with
  | PValue stk, _ => value_step stk t
  | PArrayFirst stk, TRBracket => Some (complete (JArray []) stk)
  | PArrayFirst stk, _ => value_step (FArray [] :: stk) t
  | PArrayNext elems stk, TComma => Some (PValue (FArray elems :: stk))
  | PArrayNext elems stk, TRBracket =>
      Some (complete (JArray (rev elems)) stk)
  | PObjectFirst stk, TRBrace => Some (complete (JObject []) stk)
  | PObjectFirst stk, TValue (JString k) => Some (PObjectColon [] k stk)
  | PObjectKey props stk, TValue (JString k) =>
      Some (PObjectColon props k stk)
  | PObjectColon props k stk, TColon => Some (PValue (FObject props k :: stk))
  | PObjectNext props stk, TComma => Some (PObjectKey props stk)
  | PObjectNext props stk, TRBrace => Some (complete (JObject props) stk)
  | _, _ => None
  end.

Fixpoint parse_from (st : parse_state) (ts : list token) : option JSValue :=
  match ts with
  | [] => match st with PDone v => Some v | _ => None end
  | t :: rest =>
      match parse_step st t with
      | Some st' => parse_from st' rest
      | None => None
      end
  end.

(** [JSON.parse(text)]: the value, or a SyntaxError. *)
Definition parse (text : jsstring) : outcome JSValue :=
  match lex text with
  | Some ts =>
      match parse_from (PValue []) ts with
      | Some v => Returned v
      | None => Thrown SyntaxError
      end
  | None => Thrown SyntaxError
  end.

(** *** JSON.stringify *)

Definition hex_digit (n : N) : N := if n <? 10 then 48 + n else 87 + n.

(** [\uXXXX], four lower-case hexadecimal digits. *)
Definition unicode_escape (c : N) : jsstring :=
  [92; 117; hex_digit (N.shiftr c 12 mod 16); hex_digit (N.shiftr c 8 mod 16);
   hex_digit (N.shiftr c 4 mod 16); hex_digit (c mod 16)].

Definition escape_unit (c : N) : jsstring :=
  if c =? 8 then [92; 98]
  else if c =? 9 then [92; 116]
  else if c =? 10 then [92; 110]
  else if c =? 12 then [92; 102]
  else if c =? 13 then [92; 114]
  else if c =? 34 then [92; 34]
  else if c =? 92 then [92; 92]
  else if c <? 32 then unicode_escape c
  else if Unicode.is_high_surrogate c || Unicode.is_low_surrogate c
  then unicode_escape c
  else [c].

(** The characters of a quoted string.  A surrogate pair is copied; a
    surrogate on its own is escaped. *)
Fixpoint quote_units (s : jsstring) : jsstring :=
  match s with
  | [] => []
  | c :: rest =>
      match rest with
      | d :: rest' =>
          if Unicode.is_high_surrogate c && Unicode.is_low_surrogate d
          then c :: d :: quote_units rest'
          else escape_unit c ++ quote_units rest
      | [] => escape_unit c
      end
  end.

Definition quote (s : jsstring) : jsstring := [34] ++ quote_units s ++ [34].

(** The integer a property key denotes when the key is an array index:
    a canonical decimal numeral below [2^32 - 1]. *)
Fixpoint numeral (acc : N) (s : jsstring) : option N :=
  match s with
  | [] => Some acc
  | c :: rest =>
      match digit_value c with
      | Some d => numeral (acc * 10 + d) rest
      | None => None
      end
  end.

Definition array_index (k : jsstring) : option N :=
  match k with
  | [] => None
  | [48] => Some 0
  | 48 :: _ => None
  | _ => match numeral 0 k with
         | Some n => if n <? 4294967295 then Some n else None
         | None => None
         end
  end.

Fixpoint insert_index {V : Type} (n : N) (p : jsstring * V)
  (l : list (N * (jsstring * V))) : list (N * (jsstring * V)) :=
  match l with
  | [] => [(n, p)]
  | (m, q) :: rest =>
      if n <? m then (n, p) :: l else (m, q) :: insert_index n p rest
  end.

(** The own properties in the order they are enumerated: the array
    indices in ascending order, then the other keys in insertion order. *)
Definition enumerate {V : Type} (props : list (jsstring * V))
  : list (jsstring * V) :=
  let indexed :=
    fold_left (fun acc p => match array_index (fst p) with
                            | Some n => insert_index n p acc
                            | None => acc
                            end) props [] in
  map snd indexed ++
  filter (fun p => match array_index (fst p) with
                   | Some _ => false
                   | None => true
                   end) props.

(** [JSON.stringify(v)], with no replacer and no indentation.  A number
    that is not finite is written [null]. *)
Fixpoint stringify (v : JSValue) : jsstring :=
  match v with
  | JNull => js "null"
  | JBool true => js "true"
  | JBool false => js "false"
  | JNumber x =>
      if Number.is_finite x then Number.to_string x else js "null"
  | JString s => quote s
  | JArray elems => [91] ++ join [44] (map stringify elems) ++ [93]
  | JObject props =>
      [123] ++
      join [44] (map (fun p => quote (fst p) ++ [58] ++ snd p)
                     (enumerate (map (fun p => match p with
                                               | (k, e) => (k, stringify e)
                                               end) props))) ++
      [125]
  end.

End JSON.

(* ================================================================== *)
(** ** Asynchronous code: network calls and console output

    An [async] function is modelled in the order its effects happen.  The
    remote endpoint is a [Network]: what
    [fetch(url, opts).then((r) => r.text())] settles to for each request,
    a response or a rejection.  A computation
    is run against a network and yields the events it caused, in order,
    and what it returned or threw. *)

(** The [opts] object of [req]: [{ method, headers, body }]. *)
Record Opts := {
  method : jsstring;
  headers : list (jsstring * jsstring);
  body : jsstring
}.

(** A response, as far as the code reads it: the text [r.text()] gives. *)
Record Response := { text : jsstring }.

Definition Network := jsstring -> Opts -> outcome Response.

Inductive event :=
| ConsoleLog (v : JSValue)
| Fetch (url : jsstring) (opts : Opts).

Definition IO (A : Type) : Type := Network -> list event * outcome A.

Definition ret {A : Type} (a : A) : IO A := fun _ => ([], Returned a).

Definition bind {A B : Type} (m : IO A) (f : A -> IO B) : IO B :=
  fun net =>
    match m net with
    | (tr, Returned a) => let (tr', r) := f a net in (tr ++ tr', r)
    | (tr, Thrown e) => (tr, Thrown e)
    end.

Notation "x <- m ;; k" := (bind m (fun x => k))
  (at level 61, m at next level, right associativity).
Notation "m ;; k" := (bind m (fun _ => k))
  (at level 61, right associativity).

Definition lift {A : Type} (o : outcome A) : IO A := fun _ => ([], o).

Definition console_log (v : JSValue) : IO unit :=
  fun _ => ([ConsoleLog v], Returned tt).

Definition fetch (url : jsstring) (opts : Opts) : IO Response :=
  fun net => ([Fetch url opts], net url opts).

(** The events and the result of a run. *)
Definition trace {A : Type} (m : IO A) (net : Network) : list event :=
  fst (m net).
Definition result {A : Type} (m : IO A) (net : Network) : outcome A :=
  snd (m net).

(** The requests among the events. *)
Fixpoint requests (tr : list event) : list (jsstring * Opts) :=
  match tr with
  | [] => []
  | Fetch url opts :: rest => (url, opts) :: requests rest
  | ConsoleLog _ :: rest => requests rest
  end.

(* ================================================================== *)
(** ** src/lib/api.ts *)

Module Api.

Definition base : jsstring := js "http://localhost:8000/api".

Definition set_header (k v : jsstring) (o : Opts) : Opts :=
  {| method := method o; headers := obj_set (headers o) k v;
     body := body o |}.

Definition set_body (b : jsstring) (o : Opts) : Opts :=
  {| method := method o; headers := headers o; body := b |}.

(** The last [then] of [req]: the parsed text, or the text itself when
    [JSON.parse] throws. *)
Definition decode (json : jsstring) : JSValue :=
  match JSON.parse json with
  | Returned v => v
  | Thrown _ => JString json
  end.

(** [req({ method, path, data, token })].  [data] and [token] are
    optional; [if (data)] and [if (token)] test truthiness. *)
Definition req (method path : jsstring) (data : option JSValue)
  (token : option jsstring) : IO JSValue :=
  let opts := {| method := method; headers := []; body := [] |} in
  opts <- match data with
          | Some d =>
              if truthy d then
                let opts :=
                  set_header (js "Content-Type") (js "application/json")
                    opts in
                console_log d ;;
                ret (set_body (JSON.stringify d) opts)
              else ret opts
          | None => ret opts
          end ;;
  let opts := match token with
              | Some t =>
                  if truthy (JString t) then
                    set_header (js "Authorization") (js "Token " ++ t) opts
                  else opts
              | None => opts
              end in
  r <- fetch (base ++ js "/" ++ path) opts ;;
  let json := text r in
  ret (decode json).

Definition get (path : jsstring) (token : option jsstring) : IO JSValue :=
  req (js "GET") path None token.

Definition del (path : jsstring) (token : option jsstring) : IO JSValue :=
  req (js "DELETE") path None token.

Definition post (path : jsstring) (data : option JSValue)
  (token : option jsstring) : IO JSValue :=
  req (js "POST") path data token.

Definition put (path : jsstring) (data : option JSValue)
  (token : option jsstring) : IO JSValue :=
  req (js "PUT") path data token.

End Api.

(* ================================================================== *)
(** ** src/routes/users/login.ts *)

Module Login.

Record Credentials := { username : jsstring; password : jsstring }.

(** What the endpoint returns: [{ headers: { 'set-cookie': ... }, body }]. *)
Record Reply := {
  reply_headers : list (jsstring * jsstring);
  reply_body : JSValue
}.

Definition credentials_object (c : Credentials) : JSValue :=
  JObject [(js "username", JString (username c));
           (js "password", JString (password c))].

Definition post (request : Credentials) : IO Reply :=
  body <- Api.post (js "users/login") (Some (credentials_object request))
            None ;;
  token <- lift (get_token body) ;;
  value <- lift (template token) ;;
  ret {| reply_headers :=
           [(js "set-cookie",
             js "jwt=" ++ value ++ js "; Path=/; HttpOnly")];
         reply_body := body |}.

End Login.

(* ================================================================== *)
(** ** decodeURIComponent *)

Module URI.

Inductive stage :=
| Plain                  (* not inside an escape *)
| Percent                (* after % *)
| Digit (hi : N).        (* after % and one hexadecimal digit *)

(** The octets of a multi-byte sequence read so far and the number
    still to come; [None] outside such a sequence. *)
Definition pending := option (list N * nat).

(** How many octets the sequence led by [b] has: the number of leading
    one bits of [b], which must be 2, 3 or 4. *)
Definition sequence_length (b : N) : option nat :=
  if b <? 192 then None
  else if b <? 224 then Some 2%nat
  else if b <? 240 then Some 3%nat
  else if b <? 248 then Some 4%nat
  else None.

(** One escaped octet [b] read. *)
Definition octet_step (p : pending) (out : jsstring) (b : N)
  : option (pending * jsstring) :=
  match p with
  | None =>
      if b <? 128 then Some (None, b :: out)
      else match sequence_length b with
           | Some n => Some (Some ([b], pred n), out)
           | None => None
           end
  | Some (octets, todo) =>
      let octets' := octets ++ [b] in
      match todo with
      | 1%nat =>
          match Unicode.code_point octets' with
          | Some cp => Some (None, rev (Unicode.utf16 cp) ++ out)
          | None => None
          end
      | _ => Some (Some (octets', pred todo), out)
      end
  end.

(** One code unit read; [out] is the result so far, reversed.  Inside a
    multi-byte sequence every octet must be escaped. *)
Definition step (st : stage) (p : pending) (out : jsstring) (c : N)
  : option (stage * pending * jsstring) :=
  match st with
  | Plain =>
      if c =? 37 then Some (Percent, p, out)
      else match p with
           | None => Some (Plain, None, c :: out)
           | Some _ => None
           end
  | Percent =>
      match JSON.hex_value c with
      | Some h => Some (Digit h, p, out)
      | None => None
      end
  | Digit hi =>
      match JSON.hex_value c with
      | Some lo =>
          match octet_step p out (hi * 16 + lo) with
          | Some (p', out') => Some (Plain, p', out')
          | None => None
          end
      | None => None
      end
  end.

Fixpoint decode_from (st : stage) (p : pending) (out : jsstring)
  (s : jsstring) : outcome jsstring :=
  match s with
  | [] =>
      match st, p with
      | Plain, None => Returned (rev out)
      | _, _ => Thrown URIError
      end
  | c :: rest =>
      match step st p out c with
      | Some (st', p', out') => decode_from st' p' out' rest
      | None => Thrown URIError
      end
  end.

(** [decodeURIComponent(s)]: the decoded string, or a URIError when an
    escape is malformed or the escaped octets are not UTF-8. *)
Definition decodeURIComponent (s : jsstring) : outcome jsstring :=
  decode_from Plain None [] s.

End URI.

(* ================================================================== *)
(** ** The cookie package: cookie.parse *)

Module Cookie.

(** [str.split(/; */)]: the pieces between separators, a separator being
    a semicolon and the spaces after it.  [skipping] holds right after a
    semicolon; [cur] is the piece being read, reversed. *)
Fixpoint split_pairs (skipping : bool) (cur : jsstring) (s : jsstring)
  : list jsstring :=
  match s with
  | [] => [rev cur]
  | c :: rest =>
      if c =? 59 then rev cur :: split_pairs true [] rest
      else if skipping && (c =? 32) then split_pairs true cur rest
      else split_pairs false (c :: cur) rest
  end.

(** [s.indexOf('=')]. *)
Fixpoint index_of_eq (s : jsstring) : option nat :=
  match s with
  | [] => None
  | c :: rest =>
      if c =? 61 then Some 0%nat
      else match index_of_eq rest with
           | Some i => Some (S i)
           | None => None
           end
  end.

(** White space and line terminators, which [trim] strips. *)
Definition is_space (c : N) : bool :=
  ((9 <=? c) && (c <=? 13)) || (c =? 32) || (c =? 160) || (c =? 5760)
  || ((8192 <=? c) && (c <=? 8202)) || (c =? 8232) || (c =? 8233)
  || (c =? 8239) || (c =? 8287) || (c =? 12288) || (c =? 65279).

Fixpoint trim_start (s : jsstring) : jsstring :=
  match s with
  | [] => []
  | c :: rest => if is_space c then trim_start rest else s
  end.

Definition trim (s : jsstring) : jsstring :=
  rev (trim_start (rev (trim_start s))).

(** [val.slice(1, -1)]. *)
Definition strip_quotes (val : jsstring) : jsstring := removelast (tl val).

(** [tryDecode(str, decodeURIComponent)]. *)
Definition tryDecode (str : jsstring) : jsstring :=
  match URI.decodeURIComponent str with
  | Returned s => s
  | Thrown _ => str
  end.

(** The properties every object inherits from [Object.prototype]:
    [obj[key]] is not [undefined] for these keys, so a cookie of such a
    name is never assigned. *)
Definition inherited : list jsstring :=
  [js "constructor"; js "__defineGetter__"; js "__defineSetter__";
   js "hasOwnProperty"; js "__lookupGetter__"; js "__lookupSetter__";
   js "isPrototypeOf"; js "propertyIsEnumerable"; js "toString";
   js "valueOf"; js "__proto__"; js "toLocaleString"].

Definition is_inherited (k : jsstring) : bool := existsb (str_eqb k) inherited.

(** The body of the loop over the pairs. *)
Definition add_pair (obj : list (jsstring * jsstring)) (pair : jsstring)
  : list (jsstring * jsstring) :=
  match index_of_eq pair with
  | None => obj                 (* skip things that are not key=value *)
  | Some eq_idx =>
      let key := trim (firstn eq_idx pair) in
      let val := trim (skipn (S eq_idx) pair) in
      let val := match val with
                 | c :: _ => if c =? 34 then strip_quotes val else val
                 | [] => val
                 end in                           (* quoted values *)
      match lookup key obj with
      | None =>
          if is_inherited key then obj
          else obj_set obj key (tryDecode val)     (* only assign once *)
      | Some _ => obj
      end
  end.

(** [cookie.parse(str)], without options.  The argument must be a
    string. *)
Definition parse (str : JSValue) : outcome (list (jsstring * jsstring)) :=
  match str with
  | JString s => Returned (fold_left add_pair (split_pairs false [] s) [])
  | _ => Thrown TypeError
  end.

End Cookie.

(* ================================================================== *)
(** ** Node's Buffer: Base64 and UTF-8 *)

Module Buffer.

(** The value of a Base64 digit.  The standard and the URL-safe
    alphabets are both accepted. *)
Definition unbase64 (c : N) : option N :=
  if (65 <=? c) && (c <=? 90) then Some (c - 65)
  else if (97 <=? c) && (c <=? 122) then Some (c - 71)
  else if (48 <=? c) && (c <=? 57) then Some (c + 4)
  else if (c =? 43) || (c =? 45) then Some 62
  else if (c =? 47) || (c =? 95) then Some 63
  else None.

(** The digits of the text up to the first [=]; a code unit is read by
    its low byte and one that is no digit is passed over. *)
Fixpoint sextets (s : jsstring) : list N :=
  match s with
  | [] => []
  | c :: rest =>
      let c := c mod 256 in
      if c =? 61 then []
      else match unbase64 c with
           | Some v => v :: sextets rest
           | None => sextets rest
           end
  end.

Definition byte0 (a b : N) : N :=
  N.lor (N.shiftl (N.land a 63) 2) (N.shiftr (N.land b 48) 4).
Definition byte1 (b c : N) : N :=
  N.lor (N.shiftl (N.land b 15) 4) (N.shiftr (N.land c 60) 2).
Definition byte2 (c d : N) : N :=
  N.lor (N.shiftl (N.land c 3) 6) (N.land d 63).

(** Four digits give three bytes; a last group of three gives two, of
    two gives one, and a single left-over digit gives none. *)
Fixpoint bytes_of_sextets (l : list N) : list N :=
  match l with
  | a :: b :: c :: d :: rest =>
      byte0 a b :: byte1 b c :: byte2 c d :: bytes_of_sextets rest
  | [a; b; c] => [byte0 a b; byte1 b c]
  | [a; b] => [byte0 a b]
  | _ => []
  end.

(** [Buffer.from(s, 'base64')]: the bytes.  Decoding never fails. *)
Definition from_base64 (s : jsstring) : list N := bytes_of_sextets (sextets s).

(** [buf.toString('utf-8')]. *)
Definition to_utf8_string (buf : list N) : jsstring := Unicode.utf8_decode buf.

End Buffer.

(* ================================================================== *)
(** ** The session hook: getSession *)

Module Hooks.

(** [{ jwt }]; [None] is [undefined]. *)
Record Session := { jwt : option jsstring }.

Definition getSession (headers : list (jsstring * jsstring))
  : outcome Session :=
  let header :=
    match lookup (js "cookie") headers with
    | Some c => if truthy (JString c) then c else []
    | None => []
    end in
  match Cookie.parse (JString header) with
  | Thrown e => Thrown e
  | Returned cookies =>
      let jwt :=
        match lookup (js "jwt") cookies with
        | Some v =>
            if truthy (JString v)
            then Some (Buffer.to_utf8_string (Buffer.from_base64 v))
            else Some v
        | None => None
        end in
      Returned {| jwt := jwt |}
  end.

End Hooks.

(* ================================================================== *)
(** ** Base64 encoding (RFC 4648), used to state the round trip *)

Module Base64.

Definition digit (n : N) : N :=
  if n <? 26 then 65 + n
  else if n <? 52 then 71 + n
  else if n <? 62 then n - 4
  else if n =? 62 then 43 else 47.

Fixpoint encode (bs : list N) : jsstring :=
  match bs with
  | [] => []
  | [a] =>
      [digit (N.shiftr a 2); digit (N.shiftl (N.land a 3) 4); 61; 61]
  | [a; b] =>
      [digit (N.shiftr a 2);
       digit (N.lor (N.shiftl (N.land a 3) 4) (N.shiftr b 4));
       digit (N.shiftl (N.land b 15) 2); 61]
  | a :: b :: c :: rest =>
      digit (N.shiftr a 2)
      :: digit (N.lor (N.shiftl (N.land a 3) 4) (N.shiftr b 4))
      :: digit (N.lor (N.shiftl (N.land b 15) 2) (N.shiftr c 6))
      :: digit (N.land c 63)
      :: encode rest
  end.

(** The code units 0x20 to 0x7E. *)
Definition printable (c : N) : Prop := 32 <= c <= 126.

(** The digits of the alphabet and the padding sign. *)
Definition is_alphabet (c : N) : bool :=
  ((65 <=? c) && (c <=? 90)) || ((97 <=? c) && (c <=? 122))
  || ((48 <=? c) && (c <=? 57)) || (c =? 43) || (c =? 47) || (c =? 61).

(** [Base64(token)]: the Base64 text of the token's UTF-8 bytes. *)
Definition of_string (token : jsstring) : jsstring :=
  encode (Unicode.utf8_encode token).

End Base64.

(* ================================================================== *)
(** ** The layout component

    The [load] function of the layout, the condition of its
    [{#if jwt}] block, and the two functions of its script: [signOut] and
    [toggleSignOut]. *)

Module Layout.

(** The props [load] returns: [{ path, jwt }]. *)
Record Props := { path : jsstring; jwt : option jsstring }.

(** [load({ page, fetch, session, context })], which reads [page.path]
    and [session.jwt]. *)
Definition load (page_path : jsstring) (session : Hooks.Session) : Props :=
  {| path := page_path; jwt := Hooks.jwt session |}.

(** [{#if jwt}]: the account menu with Sign Out is rendered when [jwt] is
    truthy, the link to the login page otherwise. *)
Definition signed_in (p : Props) : bool :=
  match jwt p with
  | Some s => truthy (JString s)
  | None => false
  end.

(** The second argument of [fetch] in [signOut]. *)
Record Init := {
  init_method : jsstring;
  init_credentials : jsstring;
  init_headers : list (jsstring * jsstring)
}.

(** What [signOut] does to the outside: a call to [fetch], a call to
    [goto]. *)
Inductive event :=
| Request (url : jsstring) (init : Init)
| Goto (href : jsstring).

(** What [fetch(url, init)] settles to. *)
Definition Browser := jsstring -> Init -> outcome Response.

(** [signOut]: the response is read with [r.json()], which rejects when
    the body is not JSON; [goto('/')] comes after the [await]. *)
Definition signOut (net : Browser) : list event * outcome unit :=
  let url := js "users/logout" in
  let init := {| init_method := js "POST";
                 init_credentials := js "include";
                 init_headers :=
                   [(js "Content-Type", js "application/json")] |} in
  match net url init with
  | Returned r =>
      match JSON.parse (text r) with
      | Returned response => ([Request url init; Goto (js "/")], Returned tt)
      | Thrown e => ([Request url init], Thrown e)
      end
  | Thrown e => ([Request url init], Thrown e)
  end.

(** [toggleSignOut], on the state [signOutModal]. *)
Definition toggleSignOut (signOutModal : bool) : bool := negb signOutModal.

End Layout.

(* ================================================================== *)
(** ** fetch and the body of a request

    [fetch(url, init)] begins with [new Request(url, init)], which throws
    a TypeError when [init.body] is there and not [null] and the method is
    [GET] or [HEAD].  The options [req] builds always have a [body], a
    string, so what decides is the method. *)

Module FetchStandard.





End FetchStandard.

(* ================================================================== *)
(** ** Vocabulary of the statements *)

(** The network answers every request of the run with the response [r]. *)
Definition answered {A : Type} (m : IO A) (net : Network) (r : Response)
  : Prop :=
  forall url o, In (url, o) (requests (trace m net)) -> net url o = Returned r.

(** A network that answers every request with the text [s]. *)
Definition always (s : jsstring) : Network :=
  fun _ _ => Returned {| text := s |}.

(** Base64 text with its padding left off, and Base64 text written in
    the URL-safe alphabet ([-] for [+], [_] for [/]). *)
Definition unpadded (s : jsstring) : jsstring :=
  filter (fun c => negb (c =? 61)) s.

Definition url_safe (s : jsstring) : jsstring :=
  map (fun c => if c =? 43 then 45 else if c =? 47 then 95 else c) s.

(* ================================================================== *)
(** * Properties *)

(** ** The models on small inputs *)

Example number_to_string_examples :
  map (fun '(d, e) =>
         Number.to_string (Number.of_decimal false (Z.to_N d) e))
    [(1, -1); (5, -324); (1, 21); (1, 20); (123456789, -3); (1, -7);
     (1, -6); (17976931348623157, 292); (9007199254740993, 0); (1, 400)]%Z
  = map js ["0.1"; "5e-324"; "1e+21"; "100000000000000000000"; "123456.789";
            "1e-7"; "0.000001"; "1.7976931348623157e+308";
            "9007199254740992"; "Infinity"]%string.
Proof. vm_compute. reflexivity. Qed.

Example parse_stringify_example :
  match JSON.parse
          (jsq "{'b': 0, 'a': [1, -2.5e3, true, null, 'x\u0041'],
                 '10': {}, '2': 0.1, 'b': 7}") with
  | Returned v => JSON.stringify v
  | Thrown _ => []
  end
  = jsq "{'2':0.1,'10':{},'b':7,'a':[1,-2500,true,null,'xA']}".
Proof. vm_compute. reflexivity. Qed.

Example parse_rejects :
  forallb (fun s => match JSON.parse s with
                    | Thrown _ => true
                    | Returned _ => false
                    end)
    [js "Internal Server Error"; js ""; js "01"; js "1."; js "-"; js "[1,]";
     jsq "{'a':1,}"; jsq "{a:1}"; js "[1 2]"; js "nul"; js "truee";
     jsq "'a"; js "undefined"; js "NaN"; js "1 2"; js "]"]
  = true.
Proof. vm_compute. reflexivity. Qed.

Example parse_accepts :
  map Api.decode [js " null "; js "-0"; js "[ ]"; jsq "'a\nb'"; js "false"]
  = [JNull; JNumber (S754_zero true); JArray []; JString [97; 10; 98];
     JBool false].
Proof. vm_compute. reflexivity. Qed.

Example cookie_parse_example :
  Cookie.parse
    (JString (jsq "a='b c'; d=%41%zz; e=%41; f=x=y;; g; a=2; toString=1"))
  = Returned [(js "a", js "b c"); (js "d", js "%41%zz"); (js "e", js "A");
              (js "f", js "x=y")].
Proof. vm_compute. reflexivity. Qed.

Example from_base64_examples :
  map (fun s => Buffer.to_utf8_string (Buffer.from_base64 (js s)))
    ["YWJjMTIz"; "YQ==YQ=="; "Y W!Jj"; "fn5-"; "YQ"; "Y"; "w6k="]%string
  = [js "abc123"; js "a"; js "abc"; js "~~~"; js "a"; []; [233]].
Proof. vm_compute. reflexivity. Qed.

Example transport_failure_propagates :
  result (Api.get (js "orders") (Some (js "tok")))
    (fun _ _ => Thrown FetchError)
  = Thrown FetchError.
Proof. reflexivity. Qed.

Example to_string_examples :
  map to_string
    [Api.decode (jsq "[1,[null,'a'],true]"); Api.decode (jsq "{'a':1}");
     Api.decode (jsq "{'toString':1}"); Api.decode (jsq "[0,{'toString':[]}]");
     Api.decode (jsq "{'valueOf':1}")]
  = [Returned (js "1,,a,true"); Returned (js "[object Object]");
     Thrown TypeError; Thrown TypeError; Returned (js "[object Object]")].
Proof. vm_compute. reflexivity. Qed.

Example login_unconvertible_token_throws :
  result (Login.post {| Login.username := js "alice";
                        Login.password := js "secret" |})
    (always (jsq "{'token':{'toString':1}}"))
  = Thrown TypeError.
Proof. vm_compute. reflexivity. Qed.

Example login_null_response_throws :
  result (Login.post {| Login.username := js "alice";
                        Login.password := js "secret" |})
    (always (js "null"))
  = Thrown TypeError.
Proof. vm_compute. reflexivity. Qed.

(** ** Strings *)

Lemma str_eqb_refl : forall a, str_eqb a a = true.
Proof.
  induction a as [|x a IH]; simpl; [reflexivity|].
  now rewrite N.eqb_refl, IH.
Qed.

Lemma str_eqb_eq : forall a b, str_eqb a b = true <-> a = b.
Proof.
  induction a as [|x a IH]; destruct b as [|y b]; simpl; split;
    try discriminate; try reflexivity; intros H.
  - apply andb_true_iff in H. destruct H as [Hxy Hab].
    apply N.eqb_eq in Hxy. apply IH in Hab. now subst.
  - injection H as -> ->. now rewrite N.eqb_refl, str_eqb_refl.
Qed.

(** ** The request client *)

(** Runs of [req] are computed by cases on what [data] and [token] are. *)
Ltac run_req :=
  unfold Api.post, Api.put, Api.get, Api.del, Api.req, trace, result, bind,
    ret, fetch, console_log, lift;
  cbn [fst snd app requests Api.set_header Api.set_body headers body method].

(** The events of a run do not depend on what the network answers. *)
Ltac any_answer :=
  repeat match goal with
         | |- context [match ?net ?u ?o with _ => _ end] => destruct (net u o)
         end;
  cbn [fst snd app requests].

Lemma req_requests :
  forall method path data token net,
  exists o,
    requests (trace (Api.req method path data token) net)
    = [(Api.base ++ js "/" ++ path, o)]
    /\ result (Api.req method path data token) net
       = match net (Api.base ++ js "/" ++ path) o with
         | Returned r => Returned (Api.decode (text r))
         | Thrown e => Thrown e
         end.
Proof.
  intros method path data token net. run_req.
  destruct data as [d|]; [destruct (truthy d)|];
    cbn [fst snd app requests];
    match goal with
    | |- context [net ?u ?o] => exists o; destruct (net u o); split; reflexivity
    end.
Qed.

(** C1. Whatever response the remote gives, [req] reads its text and tries
    [JSON.parse]: when the text parses, [req] returns the parsed value; when
    the parse throws, [req] returns the text itself; either way it returns
    and does not throw. *)
Theorem req_decode_fallback :
  forall method path data token (net : Network) (r : Response),
    answered (Api.req method path data token) net r ->
    (forall v, JSON.parse (text r) = Returned v ->
       result (Api.req method path data token) net = Returned v)
    /\ (forall e, JSON.parse (text r) = Thrown e ->
       result (Api.req method path data token) net
       = Returned (JString (text r)))
    /\ (exists v, result (Api.req method path data token) net = Returned v).
Proof.
  intros method path data token net r Hnet.
  destruct (req_requests method path data token net) as [o [Hreq Hres]].
  assert (Hr : net (Api.base ++ js "/" ++ path) o = Returned r).
  { apply Hnet. rewrite Hreq. now left. }
  rewrite Hres, Hr. unfold Api.decode.
  repeat split.
  - intros v Hv. now rewrite Hv.
  - intros e He. now rewrite He.
  - destruct (JSON.parse (text r)); eexists; reflexivity.
Qed.

Lemma req_decode_fallback_witness :
  (let r := {| text := js "Internal Server Error" |} in
   let net := always (text r) in
   result (Api.req (js "GET") (js "orders") None (Some (js "tok"))) net
   = Returned (JString (js "Internal Server Error")))
  /\ (let r := {| text := jsq "{'token':'abc123'}" |} in
      let net := always (text r) in
      result (Api.req (js "GET") (js "orders") None (Some (js "tok"))) net
      = Returned (JObject [(js "token", JString (js "abc123"))])).
Proof.
  split.
  - exact (proj1 (proj2
      (req_decode_fallback (js "GET") (js "orders") None (Some (js "tok"))
         (always (js "Internal Server Error"))
         {| text := js "Internal Server Error" |}
         (fun _ _ _ => eq_refl)))
      SyntaxError eq_refl).
  - exact (proj1
      (req_decode_fallback (js "GET") (js "orders") None (Some (js "tok"))
         (always (jsq "{'token':'abc123'}"))
         {| text := jsq "{'token':'abc123'}" |}
         (fun _ _ _ => eq_refl))
      (JObject [(js "token", JString (js "abc123"))]) eq_refl).
Defined.

(** C9. The raw-text fallback is where decoding ends: a text that is not
    JSON is returned unchanged, and decoding the returned text again gives
    the same text again. *)
Theorem decode_fallback_idempotent :
  forall (s : jsstring) (e : JSError),
    JSON.parse s = Thrown e ->
    Api.decode s = JString s
    /\ (forall s', Api.decode s = JString s' -> Api.decode s' = JString s').
Proof.
  intros s e He.
  assert (Hs : Api.decode s = JString s) by (unfold Api.decode; now rewrite He).
  split; [exact Hs|].
  intros s' Hs'. rewrite Hs in Hs'. injection Hs' as <-. exact Hs.
Qed.

Lemma decode_fallback_idempotent_witness :
  Api.decode (js "Internal Server Error") = JString (js "Internal Server Error")
  /\ (forall s', Api.decode (js "Internal Server Error") = JString s' ->
        Api.decode s' = JString s').
Proof.
  exact (decode_fallback_idempotent (js "Internal Server Error") SyntaxError
           eq_refl).
Defined.

(** C5, as the code has it.  [if (data)] tests truthiness, so the body and
    the content type are set for every truthy [data]: the request body is
    [JSON.stringify(data)] and the [Content-Type] header is
    [application/json].  This holds for [req] with any method, and so for
    [post] and [put]. *)
Theorem req_truthy_data_body :
  forall method path (d : JSValue) token (net : Network),
    truthy d = true ->
    (exists o,
       requests (trace (Api.req method path (Some d) token) net)
       = [(Api.base ++ js "/" ++ path, o)]
       /\ body o = JSON.stringify d
       /\ lookup (js "Content-Type") (headers o) = Some (js "application/json"))
    /\ Api.post path (Some d) token = Api.req (js "POST") path (Some d) token
    /\ Api.put path (Some d) token = Api.req (js "PUT") path (Some d) token.
Proof.
  intros method path d token net Hd.
  split; [|split; reflexivity].
  run_req. rewrite Hd. cbn [fst snd app requests].
  destruct token as [t|]; [destruct (truthy (JString t))|];
    any_answer; eexists; (split; [reflexivity|split; reflexivity]).
Qed.

Lemma req_truthy_data_body_witness :
  exists o,
    requests (trace (Api.req (js "POST") (js "users/login")
                       (Some (JObject [(js "username", JString (js "alice"))]))
                       None)
                (always (js "ok")))
    = [(Api.base ++ js "/" ++ js "users/login", o)]
    /\ body o = JSON.stringify (JObject [(js "username", JString (js "alice"))])
    /\ lookup (js "Content-Type") (headers o) = Some (js "application/json").
Proof.
  exact (proj1 (req_truthy_data_body (js "POST") (js "users/login")
                  (JObject [(js "username", JString (js "alice"))]) None
                  (always (js "ok")) eq_refl)).
Defined.

(** C5 fails as stated: [false] is JSON-serializable, yet [post] with
    [data = false] sends an empty body, not the text [false], and sets no
    [Content-Type]. *)
Lemma req_falsy_data_counterexample :
  exists o,
    requests (trace (Api.post (js "flags") (Some (JBool false)) None)
                (always (js "ok")))
    = [(Api.base ++ js "/" ++ js "flags", o)]
    /\ body o = []
    /\ JSON.stringify (JBool false) = js "false"
    /\ body o <> JSON.stringify (JBool false)
    /\ lookup (js "Content-Type") (headers o) = None.
Proof.
  eexists. split; [reflexivity|]. cbn.
  repeat split; try reflexivity. discriminate.
Qed.

(** C6, as the code has it.  [if (token)] tests truthiness, so the header
    is set for every non-empty token: [Authorization] is [Token ] followed
    by the token, nothing else. *)
Theorem req_token_authorization :
  forall method path data (t : jsstring) (net : Network),
    t <> [] ->
    exists o,
      requests (trace (Api.req method path data (Some t)) net)
      = [(Api.base ++ js "/" ++ path, o)]
      /\ lookup (js "Authorization") (headers o) = Some (js "Token " ++ t).
Proof.
  intros method path data t net Ht.
  run_req. destruct t as [|c t]; [congruence|].
  cbn [truthy].
  destruct data as [d|]; [destruct (truthy d)|];
    cbn [fst snd app requests]; any_answer;
    eexists; (split; [reflexivity|reflexivity]).
Qed.

Lemma req_token_authorization_witness :
  exists o,
    requests (trace (Api.req (js "GET") (js "orders") None (Some (js "tok")))
                (always (js "[]")))
    = [(Api.base ++ js "/" ++ js "orders", o)]
    /\ lookup (js "Authorization") (headers o) = Some (js "Token tok").
Proof.
  exact (req_token_authorization (js "GET") (js "orders") None (js "tok")
           (always (js "[]")) ltac:(discriminate)).
Defined.

(** C6 fails as stated: the empty string is a token string, and with it
    the request carries no [Authorization] header at all. *)
Lemma req_empty_token_counterexample :
  exists o,
    requests (trace (Api.req (js "GET") (js "orders") None (Some []))
                (always (js "[]")))
    = [(Api.base ++ js "/" ++ js "orders", o)]
    /\ lookup (js "Authorization") (headers o) = None
    /\ lookup (js "Authorization") (headers o) <> Some (js "Token " ++ []).
Proof.
  eexists. split; [reflexivity|]. cbn. split; [reflexivity|discriminate].
Qed.

(** C7, at the inputs where the code departs from it.  With neither
    [data] nor [token], what [req] passes to [fetch] is the object it
    started from on its first line, [{ method, headers: {}, body: '' }]:
    the [body] option is there, holding the empty string, where a call
    without a body would leave it out.  So it is for [get] and [del]
    called without a token, and for [req({ method: 'GET', path:
    'orders' })]. *)
Theorem req_bare_request_passes_string_body :
  forall verb path (net : Network),
    requests (trace (Api.req verb path None None) net)
    = [(Api.base ++ js "/" ++ path,
        {| method := verb; headers := []; body := js "" |})]
    /\ requests (trace (Api.get path None) net)
       = [(Api.base ++ js "/" ++ path,
           {| method := js "GET"; headers := []; body := js "" |})]
    /\ requests (trace (Api.del path None) net)
       = [(Api.base ++ js "/" ++ path,
           {| method := js "DELETE"; headers := []; body := js "" |})]
    /\ requests (trace (Api.req (js "GET") (js "orders") None None) net)
       = [(js "http://localhost:8000/api/orders",
           {| method := js "GET"; headers := []; body := js "" |})].
Proof.
  intros verb path net.
  repeat split; run_req; any_answer; reflexivity.
Qed.

(** ** The login endpoint *)

(** The request [Login.post] sends for the credentials [c]. *)
Lemma login_run :
  forall (c : Login.Credentials) (net : Network),
    let url := Api.base ++ js "/" ++ js "users/login" in
    let o := {| method := js "POST";
                headers := [(js "Content-Type", js "application/json")];
                body := JSON.stringify (Login.credentials_object c) |} in
    trace (Login.post c) net
    = [ConsoleLog (Login.credentials_object c); Fetch url o]
    /\ result (Login.post c) net
       = match net url o with
         | Returned r =>
             match get_token (Api.decode (text r)) with
             | Returned token =>
                 match template token with
                 | Returned value =>
                     Returned
                       {| Login.reply_headers :=
                            [(js "set-cookie",
                              js "jwt=" ++ value ++ js "; Path=/; HttpOnly")];
                          Login.reply_body := Api.decode (text r) |}
                 | Thrown e => Thrown e
                 end
             | Thrown e => Thrown e
             end
         | Thrown e => Thrown e
         end.
Proof.
  intros c net url o. unfold Login.post. run_req.
  change (truthy (Login.credentials_object c)) with true. cbv iota beta.
  change (Api.set_body _ _) with o. fold url.
  destruct (net url o) as [r|e]; cbn [fst snd app]; [|split; reflexivity].
  destruct (get_token (Api.decode (text r))) as [token|e];
    cbn [fst snd app]; [|split; reflexivity].
  destruct (template token); split; reflexivity.
Qed.

Lemma login_answer :
  forall (c : Login.Credentials) (net : Network) (r : Response),
    answered (Login.post c) net r ->
    net (Api.base ++ js "/" ++ js "users/login")
        {| method := js "POST";
           headers := [(js "Content-Type", js "application/json")];
           body := JSON.stringify (Login.credentials_object c) |}
    = Returned r.
Proof.
  intros c net r H. apply H.
  rewrite (proj1 (login_run c net)). now left.
Qed.

(** C2. Whatever the credentials and whatever the network answers, the
    endpoint submits them in one call: a POST to [users/login] under the
    API base, whose body is the JSON text of the object holding the user
    name and the password as given, with the [Content-Type] header and no
    other, so with no [Authorization] header.  When the decoded response
    has a [token] field holding the string [t], the reply's [set-cookie]
    header is [jwt=], then [t] as it is (not Base64-encoded), then
    [; Path=/; HttpOnly]; for the response text [{"token":"abc123"}] that
    is [jwt=abc123; Path=/; HttpOnly]. *)
Theorem login_sets_jwt_cookie :
  forall (c : Login.Credentials) (net : Network),
    (exists o,
       requests (trace (Login.post c) net)
       = [(js "http://localhost:8000/api/users/login", o)]
       /\ method o = js "POST"
       /\ body o
          = JSON.stringify
              (JObject [(js "username", JString (Login.username c));
                        (js "password", JString (Login.password c))])
       /\ headers o = [(js "Content-Type", js "application/json")]
       /\ lookup (js "Authorization") (headers o) = None)
    /\ (forall (r : Response) (props : list (jsstring * JSValue))
               (t : jsstring),
          answered (Login.post c) net r ->
          Api.decode (text r) = JObject props ->
          lookup (js "token") props = Some (JString t) ->
          result (Login.post c) net
          = Returned
              {| Login.reply_headers :=
                   [(js "set-cookie",
                     js "jwt=" ++ t ++ js "; Path=/; HttpOnly")];
                 Login.reply_body := JObject props |})
    /\ (forall (r : Response),
          answered (Login.post c) net r ->
          text r = jsq "{'token':'abc123'}" ->
          result (Login.post c) net
          = Returned
              {| Login.reply_headers :=
                   [(js "set-cookie", js "jwt=abc123; Path=/; HttpOnly")];
                 Login.reply_body :=
                   JObject [(js "token", JString (js "abc123"))] |}).
Proof.
  intros c net.
  destruct (login_run c net) as [Htr Hres].
  assert (Hcookie :
            forall r props t,
              answered (Login.post c) net r ->
              Api.decode (text r) = JObject props ->
              lookup (js "token") props = Some (JString t) ->
              result (Login.post c) net
              = Returned
                  {| Login.reply_headers :=
                       [(js "set-cookie",
                         js "jwt=" ++ t ++ js "; Path=/; HttpOnly")];
                     Login.reply_body := JObject props |}).
  { intros r props t Hnet Hdec Htok.
    rewrite Hres, (login_answer c net r Hnet), Hdec.
    cbn [get_token]. now rewrite Htok. }
  split; [|split].
  - rewrite Htr. eexists. repeat split.
  - exact Hcookie.
  - intros r Hnet Htext.
    apply (Hcookie r [(js "token", JString (js "abc123"))] (js "abc123") Hnet);
      [now rewrite Htext|reflexivity].
Qed.

Lemma login_sets_jwt_cookie_witness :
  (exists o,
     requests (trace (Login.post {| Login.username := js "alice";
                                    Login.password := js "secret" |})
                 (always (jsq "{'token':'abc123'}")))
     = [(js "http://localhost:8000/api/users/login", o)]
     /\ method o = js "POST"
     /\ body o = jsq "{'username':'alice','password':'secret'}"
     /\ headers o = [(js "Content-Type", js "application/json")])
  /\ result (Login.post {| Login.username := js "alice";
                           Login.password := js "secret" |})
       (always (jsq "{'token':'abc123'}"))
     = Returned
         {| Login.reply_headers :=
              [(js "set-cookie", js "jwt=abc123; Path=/; HttpOnly")];
            Login.reply_body :=
              JObject [(js "token", JString (js "abc123"))] |}.
Proof.
  pose proof (login_sets_jwt_cookie
                {| Login.username := js "alice"; Login.password := js "secret" |}
                (always (jsq "{'token':'abc123'}"))) as [[o Ho] [_ Hcookie]].
  split.
  - exists o. destruct Ho as (H1 & H2 & H3 & H4 & _).
    repeat split; assumption.
  - exact (Hcookie {| text := jsq "{'token':'abc123'}" |}
             (fun _ _ _ => eq_refl) eq_refl).
Defined.

(** C4. When the login response is not JSON, the decoded body is the raw
    text, reading its [token] gives [undefined], and the reply carries the
    cookie header [jwt=undefined; Path=/; HttpOnly] together with the raw
    text as its body. *)
Theorem login_non_json_cookie :
  forall (c : Login.Credentials) (net : Network) (r : Response) (e : JSError),
    answered (Login.post c) net r ->
    JSON.parse (text r) = Thrown e ->
    Api.decode (text r) = JString (text r)
    /\ get_token (Api.decode (text r)) = Returned None
    /\ result (Login.post c) net
       = Returned
           {| Login.reply_headers :=
                [(js "set-cookie", js "jwt=undefined; Path=/; HttpOnly")];
              Login.reply_body := JString (text r) |}.
Proof.
  intros c net r e Hnet He.
  assert (Hdec : Api.decode (text r) = JString (text r))
    by (unfold Api.decode; now rewrite He).
  destruct (login_run c net) as [_ Hres].
  rewrite (login_answer c net r Hnet), Hdec in Hres.
  rewrite Hdec. repeat split. exact Hres.
Qed.

Lemma login_non_json_cookie_witness :
  let alice := {| Login.username := js "alice";
                  Login.password := js "secret" |} in
  let raw := js "Internal Server Error" in
  Api.decode raw = JString raw
  /\ get_token (Api.decode raw) = Returned None
  /\ result (Login.post alice) (always raw)
     = Returned
         {| Login.reply_headers :=
              [(js "set-cookie", js "jwt=undefined; Path=/; HttpOnly")];
            Login.reply_body := JString raw |}.
Proof.
  exact (login_non_json_cookie
           {| Login.username := js "alice"; Login.password := js "secret" |}
           (always (js "Internal Server Error"))
           {| text := js "Internal Server Error" |} SyntaxError
           (fun _ _ _ => eq_refl) eq_refl).
Defined.

(** ** The session hook *)

(** C8. Headers without a [cookie] entry give the session [{ jwt:
    undefined }]; [getSession] returns it and does not throw. *)
Theorem getSession_no_cookie :
  forall (h : list (jsstring * jsstring)),
    lookup (js "cookie") h = None ->
    Hooks.getSession h = Returned {| Hooks.jwt := None |}.
Proof.
  intros h Hh. unfold Hooks.getSession. rewrite Hh. reflexivity.
Qed.

Lemma getSession_no_cookie_witness :
  Hooks.getSession [(js "host", js "localhost:3000")]
  = Returned {| Hooks.jwt := None |}.
Proof.
  exact (getSession_no_cookie [(js "host", js "localhost:3000")] eq_refl).
Defined.

(** [headers.cookie || ''] is the header when there is one and the empty
    string otherwise. *)
Lemma cookie_header_or_empty :
  forall (h : list (jsstring * jsstring)),
    match lookup (js "cookie") h with
    | Some c => if truthy (JString c) then c else []
    | None => []
    end
    = match lookup (js "cookie") h with Some c => c | None => [] end.
Proof.
  intros h. destruct (lookup (js "cookie") h) as [[|c s]|]; reflexivity.
Qed.

(** C10. [getSession] returns a session for every headers object: the
    cookie header, present or not, well formed or not, always parses to
    some cookies; without a [jwt] cookie the field is [undefined]; an
    empty [jwt] cookie is handed on as the empty string, undecoded; any
    other value goes through the Base64 and UTF-8 decoders, which give a
    string whatever the value is.  The last three lines are runs on a
    malformed escape, on text that is not Base64, and on stray
    separators. *)
Theorem getSession_total :
  forall (h : list (jsstring * jsstring)),
    (exists cookies s,
       Cookie.parse
         (JString match lookup (js "cookie") h with
                  | Some c => c
                  | None => []
                  end)
       = Returned cookies
       /\ Hooks.getSession h = Returned s
       /\ (lookup (js "jwt") cookies = None -> Hooks.jwt s = None)
       /\ (lookup (js "jwt") cookies = Some [] -> Hooks.jwt s = Some [])
       /\ (forall v, lookup (js "jwt") cookies = Some v -> v <> [] ->
           Hooks.jwt s
           = Some (Buffer.to_utf8_string (Buffer.from_base64 v))))
    /\ Hooks.getSession [(js "cookie", js "jwt=%zz")]
       = Returned {| Hooks.jwt := Some [65533] |}
    /\ Hooks.getSession [(js "cookie", js "jwt=!!!!")]
       = Returned {| Hooks.jwt := Some [] |}
    /\ Hooks.getSession [(js "cookie", js ";; =; jwt")]
       = Returned {| Hooks.jwt := None |}.
Proof.
  intros h. split; [|repeat split].
  unfold Hooks.getSession. rewrite cookie_header_or_empty.
  cbn [Cookie.parse].
  eexists. eexists. split; [reflexivity|]. split; [reflexivity|].
  cbn [Hooks.jwt].
  repeat split.
  - intros H. now rewrite H.
  - intros H. now rewrite H.
  - intros v H Hv. rewrite H. destruct v; [congruence|reflexivity].
Qed.

(** ** Checking a property of small numbers by running it *)

Lemma below_in_range :
  forall (n : nat) (x : N), x < N.of_nat n -> In x (map N.of_nat (seq 0 n)).
Proof.
  intros n x Hx. rewrite <- (N2Nat.id x). apply in_map. apply in_seq. lia.
Qed.

Lemma check_below :
  forall (n : nat) (P : N -> bool),
    forallb P (map N.of_nat (seq 0 n)) = true ->
    forall x, x < N.of_nat n -> P x = true.
Proof.
  intros n P H x Hx. rewrite forallb_forall in H.
  apply H, below_in_range, Hx.
Qed.

Lemma check_below2 :
  forall (n m : nat) (P : N -> N -> bool),
    forallb (fun a => forallb (P a) (map N.of_nat (seq 0 m)))
      (map N.of_nat (seq 0 n)) = true ->
    forall a b, a < N.of_nat n -> b < N.of_nat m -> P a b = true.
Proof.
  intros n m P H a b Ha Hb.
  apply (check_below m (P a)); [|exact Hb].
  apply (check_below n (fun a => forallb (P a) (map N.of_nat (seq 0 m))) H a Ha).
Qed.

(** Lists three elements at a time. *)
Lemma list_ind3 :
  forall (A : Type) (P : list A -> Prop),
    P [] -> (forall a, P [a]) -> (forall a b, P [a; b]) ->
    (forall a b c rest, P rest -> P (a :: b :: c :: rest)) ->
    forall l, P l.
Proof.
  intros A P H0 H1 H2 H3. fix IH 1.
  intros [|a [|b [|c rest]]];
    [apply H0 | apply H1 | apply H2 | apply H3; apply IH].
Qed.

(** ** Base64: what is encoded decodes back *)

Lemma digit_decodes :
  forall n rest, n < 64 ->
    Buffer.sextets (Base64.digit n :: rest) = n :: Buffer.sextets rest.
Proof.
  intros n rest Hn.
  assert (H := check_below 64
            (fun n => let c := Base64.digit n mod 256 in
                      negb (c =? 61)
                      && match Buffer.unbase64 c with
                         | Some m => m =? n
                         | None => false
                         end)
            ltac:(vm_compute; reflexivity) n Hn).
  cbv beta zeta in H. apply andb_true_iff in H. destruct H as [Hpad Hval].
  cbn [Buffer.sextets].
  apply negb_true_iff in Hpad. rewrite Hpad.
  destruct (Buffer.unbase64 (Base64.digit n mod 256)) as [m|]; [|discriminate].
  apply N.eqb_eq in Hval. now subst.
Qed.

Lemma padding_stops : forall rest, Buffer.sextets (61 :: rest) = [].
Proof. reflexivity. Qed.

(** The digits of one and of two bytes, and the bytes they give back. *)
Lemma group_of_two :
  forall a b, a < 256 -> b < 256 ->
    let s0 := N.shiftr a 2 in
    let s1 := N.lor (N.shiftl (N.land a 3) 4) (N.shiftr b 4) in
    let p1 := N.shiftl (N.land a 3) 4 in
    s0 < 64 /\ s1 < 64 /\ p1 < 64
    /\ Buffer.byte0 s0 s1 = a /\ Buffer.byte0 s0 p1 = a
    /\ N.land s1 15 = N.shiftr b 4.
Proof.
  intros a b Ha Hb s0 s1 p1.
  assert (H := check_below2 256 256
            (fun a b =>
               let s0 := N.shiftr a 2 in
               let s1 := N.lor (N.shiftl (N.land a 3) 4) (N.shiftr b 4) in
               let p1 := N.shiftl (N.land a 3) 4 in
               (s0 <? 64) && (s1 <? 64) && (p1 <? 64)
               && (Buffer.byte0 s0 s1 =? a) && (Buffer.byte0 s0 p1 =? a)
               && (N.land s1 15 =? N.shiftr b 4))
            ltac:(vm_compute; reflexivity) a b Ha Hb).
  cbv beta zeta in H. fold s0 s1 p1 in H.
  repeat rewrite andb_true_iff in H.
  repeat rewrite N.ltb_lt in H. repeat rewrite N.eqb_eq in H.
  tauto.
Qed.

Lemma group_tail :
  forall b c, b < 256 -> c < 256 ->
    let s2 := N.lor (N.shiftl (N.land b 15) 2) (N.shiftr c 6) in
    let p2 := N.shiftl (N.land b 15) 2 in
    let s3 := N.land c 63 in
    s2 < 64 /\ p2 < 64 /\ s3 < 64
    /\ N.shiftr (N.land s2 60) 2 = N.land b 15
    /\ N.shiftr (N.land p2 60) 2 = N.land b 15
    /\ N.lor (N.shiftl (N.shiftr b 4) 4) (N.land b 15) = b
    /\ Buffer.byte2 s2 s3 = c.
Proof.
  intros b c Hb Hc s2 p2 s3.
  assert (H := check_below2 256 256
            (fun b c =>
               let s2 := N.lor (N.shiftl (N.land b 15) 2) (N.shiftr c 6) in
               let p2 := N.shiftl (N.land b 15) 2 in
               let s3 := N.land c 63 in
               (s2 <? 64) && (p2 <? 64) && (s3 <? 64)
               && (N.shiftr (N.land s2 60) 2 =? N.land b 15)
               && (N.shiftr (N.land p2 60) 2 =? N.land b 15)
               && (N.lor (N.shiftl (N.shiftr b 4) 4) (N.land b 15) =? b)
               && (Buffer.byte2 s2 s3 =? c))
            ltac:(vm_compute; reflexivity) b c Hb Hc).
  cbv beta zeta in H. fold s2 p2 s3 in H.
  repeat rewrite andb_true_iff in H.
  repeat rewrite N.ltb_lt in H. repeat rewrite N.eqb_eq in H.
  tauto.
Qed.

Lemma byte1_of_digits :
  forall s1 s2 b,
    N.land s1 15 = N.shiftr b 4 ->
    N.shiftr (N.land s2 60) 2 = N.land b 15 ->
    N.lor (N.shiftl (N.shiftr b 4) 4) (N.land b 15) = b ->
    Buffer.byte1 s1 s2 = b.
Proof.
  intros s1 s2 b H1 H2 H3. unfold Buffer.byte1. now rewrite H1, H2.
Qed.

Lemma from_base64_encode :
  forall bs, Forall (fun b => b < 256) bs ->
    Buffer.from_base64 (Base64.encode bs) = bs.
Proof.
  unfold Buffer.from_base64.
  induction bs as [|a|a b|a b c rest IH] using list_ind3; intros Hbs.
  - reflexivity.
  - inversion_clear Hbs as [|? ? Ha _].
    destruct (group_of_two a a Ha Ha) as (H0 & _ & Hp & _ & Hb0 & _).
    cbn [Base64.encode].
    rewrite !digit_decodes, padding_stops by assumption.
    cbn [Buffer.bytes_of_sextets]. now rewrite Hb0.
  - inversion_clear Hbs as [|? ? Ha Hbs']. inversion_clear Hbs' as [|? ? Hb _].
    destruct (group_of_two a b Ha Hb) as (H0 & H1 & _ & Hb0 & _ & Hlo).
    destruct (group_tail b b Hb Hb) as (_ & Hp & _ & _ & Hhi & Hb1 & _).
    cbn [Base64.encode].
    rewrite !digit_decodes, padding_stops by assumption.
    cbn [Buffer.bytes_of_sextets].
    now rewrite Hb0, (byte1_of_digits _ _ b Hlo Hhi Hb1).
  - inversion_clear Hbs as [|? ? Ha Hbs']. inversion_clear Hbs' as [|? ? Hb Hbs].
    inversion_clear Hbs as [|? ? Hc Hrest].
    destruct (group_of_two a b Ha Hb) as (H0 & H1 & _ & Hb0 & _ & Hlo).
    destruct (group_tail b c Hb Hc) as (H2 & _ & H3 & Hhi & _ & Hb1 & Hb2).
    cbn [Base64.encode].
    rewrite !digit_decodes by assumption.
    cbn [Buffer.bytes_of_sextets].
    rewrite Hb0, (byte1_of_digits _ _ b Hlo Hhi Hb1), Hb2.
    now rewrite (IH Hrest).
Qed.

(** Base64 text consists of alphabet digits and padding, none of which
    means anything to the cookie parser. *)
Lemma digit_alphabet : forall n, Base64.is_alphabet (Base64.digit n) = true.
Proof.
  intros n. unfold Base64.digit, Base64.is_alphabet.
  destruct (N.ltb_spec n 26); [|destruct (N.ltb_spec n 52);
    [|destruct (N.ltb_spec n 62); [|destruct (N.eqb_spec n 62)]]];
    repeat rewrite orb_true_iff; repeat rewrite andb_true_iff;
    repeat rewrite N.leb_le; repeat rewrite N.eqb_eq; lia.
Qed.

Lemma encode_alphabet :
  forall bs, Forall (fun c => Base64.is_alphabet c = true) (Base64.encode bs).
Proof.
  induction bs as [|a|a b|a b c rest IH] using list_ind3; cbn [Base64.encode];
    repeat constructor; try apply digit_alphabet; exact IH.
Qed.

Lemma alphabet_plain :
  forall c, Base64.is_alphabet c = true ->
    (c =? 59) = false /\ (c =? 37) = false /\ (c =? 34) = false
    /\ Cookie.is_space c = false.
Proof.
  intros c H. unfold Base64.is_alphabet in H.
  repeat rewrite orb_true_iff in H. repeat rewrite andb_true_iff in H.
  repeat rewrite N.leb_le in H. repeat rewrite N.eqb_eq in H.
  repeat split; try (apply N.eqb_neq; lia).
  apply not_true_is_false. unfold Cookie.is_space. intros Hs.
  repeat rewrite orb_true_iff in Hs. repeat rewrite andb_true_iff in Hs.
  repeat rewrite N.leb_le in Hs. repeat rewrite N.eqb_eq in Hs.
  lia.
Qed.

(** ** The cookie parser on a single plain pair *)

Lemma split_pairs_single :
  forall s cur, Forall (fun c => (c =? 59) = false) s ->
    Cookie.split_pairs false cur s = [rev cur ++ s].
Proof.
  induction s as [|c s IH]; intros cur Hs; cbn [Cookie.split_pairs].
  - now rewrite app_nil_r.
  - inversion_clear Hs as [|? ? Hc Hs']. rewrite Hc. cbn [andb].
    rewrite (IH _ Hs'). cbn [rev]. now rewrite <- app_assoc.
Qed.

Lemma trim_start_plain :
  forall s, Forall (fun c => Cookie.is_space c = false) s ->
    Cookie.trim_start s = s.
Proof.
  intros [|c s] Hs; [reflexivity|].
  inversion_clear Hs as [|? ? Hc _]. cbn [Cookie.trim_start]. now rewrite Hc.
Qed.

Lemma trim_plain :
  forall s, Forall (fun c => Cookie.is_space c = false) s -> Cookie.trim s = s.
Proof.
  intros s Hs. unfold Cookie.trim.
  rewrite (trim_start_plain s Hs).
  rewrite trim_start_plain by now apply Forall_rev.
  apply rev_involutive.
Qed.

Lemma decode_from_plain :
  forall s out, Forall (fun c => (c =? 37) = false) s ->
    URI.decode_from URI.Plain None out s = Returned (rev out ++ s).
Proof.
  induction s as [|c s IH]; intros out Hs; cbn [URI.decode_from URI.step].
  - now rewrite app_nil_r.
  - inversion_clear Hs as [|? ? Hc Hs']. rewrite Hc.
    rewrite (IH _ Hs'). cbn [rev]. now rewrite <- app_assoc.
Qed.

Lemma tryDecode_plain :
  forall s, Forall (fun c => (c =? 37) = false) s -> Cookie.tryDecode s = s.
Proof.
  intros s Hs. unfold Cookie.tryDecode, URI.decodeURIComponent.
  now rewrite (decode_from_plain s [] Hs).
Qed.

Lemma parse_jwt_pair :
  forall v, Forall (fun c => Base64.is_alphabet c = true) v ->
    Cookie.parse (JString (js "jwt=" ++ v)) = Returned [(js "jwt", v)].
Proof.
  intros v Hv.
  assert (Hsemi : Forall (fun c => (c =? 59) = false) v)
    by (eapply Forall_impl; [|exact Hv]; intros c Hc; apply alphabet_plain, Hc).
  assert (Hpct : Forall (fun c => (c =? 37) = false) v)
    by (eapply Forall_impl; [|exact Hv]; intros c Hc; apply alphabet_plain, Hc).
  assert (Hsp : Forall (fun c => Cookie.is_space c = false) v)
    by (eapply Forall_impl; [|exact Hv]; intros c Hc; apply alphabet_plain, Hc).
  change (js "jwt=" ++ v) with (106 :: 119 :: 116 :: 61 :: v).
  cbn [Cookie.parse].
  rewrite split_pairs_single by (repeat constructor; exact Hsemi).
  cbn [rev app fold_left]. unfold Cookie.add_pair.
  cbn [Cookie.index_of_eq N.eqb Pos.eqb firstn skipn].
  rewrite (trim_plain v Hsp).
  change (Cookie.trim [106; 119; 116]) with (js "jwt").
  destruct v as [|c v']; [reflexivity|].
  assert (Hc : (c =? 34) = false).
  { inversion_clear Hv as [|? ? Hc _].
    exact (proj1 (proj2 (proj2 (alphabet_plain c Hc)))). }
  rewrite Hc, tryDecode_plain by exact Hpct. reflexivity.
Qed.

(** ** UTF-8 on ASCII *)

Lemma utf8_encode_ascii :
  forall s, Forall (fun c => c < 128) s -> Unicode.utf8_encode s = s.
Proof.
  induction s as [|c s IH]; intros Hs; [reflexivity|].
  inversion_clear Hs as [|? ? Hc Hs'].
  cbn [Unicode.utf8_encode].
  assert (Hh : Unicode.is_high_surrogate c = false).
  { unfold Unicode.is_high_surrogate. apply andb_false_iff. left.
    apply N.leb_gt. lia. }
  assert (Hl : Unicode.is_low_surrogate c = false).
  { unfold Unicode.is_low_surrogate. apply andb_false_iff. left.
    apply N.leb_gt. lia. }
  rewrite Hh, Hl. unfold Unicode.utf8.
  apply N.ltb_lt in Hc. rewrite Hc. cbn [app]. now rewrite (IH Hs').
Qed.

Lemma utf8_decode_ascii :
  forall bs, Forall (fun b => b < 128) bs -> Unicode.utf8_decode bs = bs.
Proof.
  induction bs as [|b bs IH]; intros Hbs; [reflexivity|].
  inversion_clear Hbs as [|? ? Hb Hbs'].
  cbn [Unicode.utf8_decode]. apply N.ltb_lt in Hb. rewrite Hb.
  now rewrite (IH Hbs').
Qed.

Lemma encode_empty : forall bs, Base64.encode bs = [] -> bs = [].
Proof.
  intros [|a [|b [|c rest]]] H; [reflexivity|discriminate..].
Qed.

(** C3. For a token [t] of printable ASCII, headers whose cookie header is
    [jwt=] followed by the Base64 text of [t] give the session
    [{ jwt: t }]: the cookie value is decoded from Base64 and read as
    UTF-8, which recovers the token. *)
Theorem getSession_base64_roundtrip :
  forall (h : list (jsstring * jsstring)) (t : jsstring),
    Forall Base64.printable t ->
    lookup (js "cookie") h = Some (js "jwt=" ++ Base64.of_string t) ->
    Hooks.getSession h = Returned {| Hooks.jwt := Some t |}.
Proof.
  intros h t Ht Hh.
  assert (H128 : Forall (fun c => c < 128) t)
    by (eapply Forall_impl; [|exact Ht]; unfold Base64.printable; intros; lia).
  assert (H256 : Forall (fun c => c < 256) t)
    by (eapply Forall_impl; [|exact Ht]; unfold Base64.printable; intros; lia).
  unfold Base64.of_string in Hh. rewrite (utf8_encode_ascii t H128) in Hh.
  unfold Hooks.getSession. rewrite Hh.
  change (truthy (JString (js "jwt=" ++ Base64.encode t))) with true.
  cbv iota. rewrite (parse_jwt_pair _ (encode_alphabet t)).
  cbn [lookup]. change (str_eqb (js "jwt") (js "jwt")) with true. cbv iota.
  unfold Buffer.to_utf8_string.
  rewrite (from_base64_encode t H256), (utf8_decode_ascii t H128).
  destruct (Base64.encode t) eqn:E; cbn [truthy]; [|reflexivity].
  now rewrite (encode_empty t E).
Qed.

Lemma getSession_base64_roundtrip_witness :
  Hooks.getSession [(js "cookie", js "jwt=YWJjMTIz")]
  = Returned {| Hooks.jwt := Some (js "abc123") |}.
Proof.
  exact (getSession_base64_roundtrip
           [(js "cookie", js "jwt=YWJjMTIz")] (js "abc123")
           ltac:(let l := eval vm_compute in (js "abc123") in
                 change (Forall Base64.printable l);
                 repeat (apply Forall_cons;
                         [unfold Base64.printable; lia|]);
                 apply Forall_nil)
           eq_refl).
Defined.

(* ================================================================== *)
(** * Further properties of the request client *)

(** X1. Whatever [data] and [token] are and whatever the network answers,
    [req] makes exactly one call, to [base/path] with the method it was
    given.  The headers are [Content-Type] when [data] is truthy followed
    by [Authorization] when [token] is a non-empty string, and no other
    header is ever set; the body is [JSON.stringify(data)] when [data] is
    truthy and the empty string otherwise. *)
Theorem req_request_shape :
  forall verb path data token (net : Network),
  exists o,
    requests (trace (Api.req verb path data token) net)
    = [(Api.base ++ js "/" ++ path, o)]
    /\ method o = verb
    /\ headers o
       = match data with
         | Some d =>
             if truthy d then [(js "Content-Type", js "application/json")]
             else []
         | None => []
         end
         ++ match token with
            | Some (c :: t) => [(js "Authorization", js "Token " ++ c :: t)]
            | _ => []
            end
    /\ body o
       = match data with
         | Some d => if truthy d then JSON.stringify d else []
         | None => []
         end.
Proof.
  intros verb path data token net. run_req.
  destruct data as [d|]; [destruct (truthy d)|];
    (destruct token as [[|c t]|]; cbn [truthy fst snd app requests];
     any_answer; eexists; repeat split).
Qed.

(** X2. A failed network call is not caught: when the network rejects
    with [e], [req] rejects with [e] after its one call, with no retry,
    and so do [get], [del], [post] and [put]; the login endpoint then
    rejects with [e] as well and produces no reply, hence no cookie. *)
Theorem transport_failure_propagates_everywhere :
  forall verb path data token (c : Login.Credentials) (net : Network)
         (e : JSError),
    (forall url o, net url o = Thrown e) ->
    result (Api.req verb path data token) net = Thrown e
    /\ List.length (requests (trace (Api.req verb path data token) net)) = 1%nat
    /\ result (Api.get path token) net = Thrown e
    /\ result (Api.del path token) net = Thrown e
    /\ result (Api.post path data token) net = Thrown e
    /\ result (Api.put path data token) net = Thrown e
    /\ result (Login.post c) net = Thrown e.
Proof.
  intros verb path data token c net e Hnet.
  assert (Hreq : forall v, result (Api.req v path data token) net = Thrown e).
  { intros v. destruct (req_requests v path data token net) as [o [_ Hres]].
    now rewrite Hres, Hnet. }
  assert (Hnone : forall v, result (Api.req v path None token) net = Thrown e).
  { intros v. destruct (req_requests v path None token net) as [o [_ Hres]].
    now rewrite Hres, Hnet. }
  repeat split; try apply Hreq; try apply Hnone.
  - destruct (req_requests verb path data token net) as [o [Htr _]].
    now rewrite Htr.
  - rewrite (proj2 (login_run c net)). now rewrite Hnet.
Qed.

Lemma transport_failure_propagates_everywhere_witness :
  result (Api.req (js "PATCH") (js "orders/1")
            (Some (JBool true)) (Some (js "tok")))
    (fun _ _ => Thrown FetchError)
  = Thrown FetchError
  /\ result (Login.post {| Login.username := js "alice";
                           Login.password := js "secret" |})
       (fun _ _ => Thrown FetchError)
     = Thrown FetchError.
Proof.
  pose proof (transport_failure_propagates_everywhere
                (js "PATCH") (js "orders/1") (Some (JBool true))
                (Some (js "tok"))
                {| Login.username := js "alice"; Login.password := js "secret" |}
                (fun _ _ => Thrown FetchError) FetchError
                (fun _ _ => eq_refl)) as H.
  exact (conj (proj1 H) (proj2 (proj2 (proj2 (proj2 (proj2 (proj2 H))))))).
Defined.

(** X3. Falsy [data] is treated as no data at all, and the empty token as
    no token: the run, with its events and its result, is the same as
    when the argument is left out, so nothing is logged, no body is sent
    and no header is set for it. *)
Theorem req_falsy_is_absent :
  forall verb path (d : JSValue) data token (net : Network),
    truthy d = false ->
    Api.req verb path (Some d) token net = Api.req verb path None token net
    /\ Api.req verb path data (Some []) net = Api.req verb path data None net.
Proof.
  intros verb path d data token net Hd. split.
  - unfold Api.req. now rewrite Hd.
  - reflexivity.
Qed.

Lemma req_falsy_is_absent_witness :
  Api.req (js "POST") (js "counters") (Some (JNumber (S754_zero false)))
    (Some (js "tok")) (always (js "ok"))
  = Api.req (js "POST") (js "counters") None (Some (js "tok"))
      (always (js "ok"))
  /\ Api.req (js "POST") (js "counters") (Some JNull) (Some [])
       (always (js "ok"))
     = Api.req (js "POST") (js "counters") (Some JNull) None
         (always (js "ok")).
Proof.
  exact (req_falsy_is_absent (js "POST") (js "counters")
           (JNumber (S754_zero false)) (Some JNull) (Some (js "tok"))
           (always (js "ok")) eq_refl).
Defined.


(* ================================================================== *)
(** * Further properties of the login endpoint *)

(** X5. Every login writes its credentials to the console: the first
    thing the endpoint does, before the request goes out and whatever the
    network answers, is [console.log] of the object that holds the user
    name and the password as given. *)
Theorem login_logs_credentials :
  forall (c : Login.Credentials) (net : Network),
  exists props url o,
    trace (Login.post c) net = [ConsoleLog (JObject props); Fetch url o]
    /\ lookup (js "username") props = Some (JString (Login.username c))
    /\ lookup (js "password") props = Some (JString (Login.password c)).
Proof.
  intros c net. destruct (login_run c net) as [Htr _].
  rewrite Htr. unfold Login.credentials_object.
  eexists. eexists. eexists. repeat split.
Qed.

(** X6. A login response that decodes to [null] makes the endpoint throw
    a TypeError, after the request has been made: reading [body['token']]
    fails, and no reply and no cookie come out. *)
Theorem login_null_body_throws :
  forall (c : Login.Credentials) (net : Network) (r : Response),
    answered (Login.post c) net r ->
    Api.decode (text r) = JNull ->
    result (Login.post c) net = Thrown TypeError
    /\ List.length (requests (trace (Login.post c) net)) = 1%nat.
Proof.
  intros c net r Hnet Hdec.
  destruct (login_run c net) as [Htr Hres].
  rewrite (login_answer c net r Hnet), Hdec in Hres.
  split; [exact Hres|]. now rewrite Htr.
Qed.

Lemma login_null_body_throws_witness :
  result (Login.post {| Login.username := js "alice";
                        Login.password := js "secret" |})
    (always (js " null "))
  = Thrown TypeError.
Proof.
  exact (proj1 (login_null_body_throws
                  {| Login.username := js "alice";
                     Login.password := js "secret" |}
                  (always (js " null ")) {| text := js " null " |}
                  (fun _ _ _ => eq_refl) eq_refl)).
Defined.

(** X7. The cookie [jwt=undefined] is not only the fate of non-JSON
    responses.  Whenever the decoded response is not [null] and has no
    [token] property of its own (a JSON error object, an array, a number,
    a boolean, a string), the endpoint returns normally, sets
    [jwt=undefined; Path=/; HttpOnly] and hands the decoded response on as
    the body. *)
Theorem login_without_token_sets_undefined :
  forall (c : Login.Credentials) (net : Network) (r : Response),
    answered (Login.post c) net r ->
    Api.decode (text r) <> JNull ->
    (forall props, Api.decode (text r) = JObject props ->
       lookup (js "token") props = None) ->
    result (Login.post c) net
    = Returned
        {| Login.reply_headers :=
             [(js "set-cookie", js "jwt=undefined; Path=/; HttpOnly")];
           Login.reply_body := Api.decode (text r) |}.
Proof.
  intros c net r Hnet Hnull Hprops.
  destruct (login_run c net) as [_ Hres].
  rewrite (login_answer c net r Hnet) in Hres. rewrite Hres.
  destruct (Api.decode (text r)) as [| b | x | s | elems | props];
    try reflexivity.
  - congruence.
  - cbn [get_token]. now rewrite (Hprops props eq_refl).
Qed.

Lemma login_without_token_sets_undefined_witness :
  result (Login.post {| Login.username := js "alice";
                        Login.password := js "wrong" |})
    (always (jsq "{'error':'bad credentials'}"))
  = Returned
      {| Login.reply_headers :=
           [(js "set-cookie", js "jwt=undefined; Path=/; HttpOnly")];
         Login.reply_body :=
           JObject [(js "error", JString (js "bad credentials"))] |}.
Proof.
  exact (login_without_token_sets_undefined
           {| Login.username := js "alice"; Login.password := js "wrong" |}
           (always (jsq "{'error':'bad credentials'}"))
           {| text := jsq "{'error':'bad credentials'}" |}
           (fun _ _ _ => eq_refl)
           ltac:(vm_compute; discriminate)
           ltac:(intros props H; vm_compute in H;
                 injection H as <-; reflexivity)).
Defined.

(* ================================================================== *)
(** * JSON texts of strings *)

Lemma hex_digit_value :
  forall n, n < 16 -> JSON.hex_value (JSON.hex_digit n) = Some n.
Proof.
  intros n Hn.
  assert (H := check_below 16
            (fun n => match JSON.hex_value (JSON.hex_digit n) with
                      | Some m => m =? n
                      | None => false
                      end)
            ltac:(vm_compute; reflexivity) n Hn).
  cbv beta in H.
  destruct (JSON.hex_value (JSON.hex_digit n)) as [m|]; [|discriminate].
  apply N.eqb_eq in H. now subst.
Qed.

Lemma nibbles_join :
  forall c, c < 65536 ->
    (((0 * 16 + N.shiftr c 12 mod 16) * 16 + N.shiftr c 8 mod 16) * 16
     + N.shiftr c 4 mod 16) * 16 + c mod 16 = c.
Proof.
  intros c Hc.
  assert (Hsplit : c = 256 * (c / 256) + c mod 256)
    by (apply N.div_mod; discriminate).
  assert (Hhi : c / 256 < 256) by (apply N.Div0.div_lt_upper_bound; lia).
  assert (Hlo : c mod 256 < 256) by (apply N.mod_lt; discriminate).
  revert Hsplit. generalize (c / 256) (c mod 256) Hhi Hlo.
  intros a b Ha Hb ->.
  apply N.eqb_eq.
  exact (check_below2 256 256
           (fun a b =>
              let c := 256 * a + b in
              (((0 * 16 + N.shiftr c 12 mod 16) * 16 + N.shiftr c 8 mod 16) * 16
               + N.shiftr c 4 mod 16) * 16 + c mod 16 =? c)
           ltac:(vm_compute; reflexivity) a b Ha Hb).
Qed.

Lemma lex_hex_digit :
  forall acc todo v n out rest, n < 16 ->
    JSON.lex_from (JSON.LHex acc (S (S todo)) v) out (JSON.hex_digit n :: rest)
    = JSON.lex_from (JSON.LHex acc (S todo) (v * 16 + n)) out rest.
Proof.
  intros acc todo v n out rest Hn.
  cbn [JSON.lex_from JSON.lex_step]. now rewrite (hex_digit_value n Hn).
Qed.

Lemma lex_last_hex_digit :
  forall acc v n out rest, n < 16 ->
    JSON.lex_from (JSON.LHex acc 1 v) out (JSON.hex_digit n :: rest)
    = JSON.lex_from (JSON.LString ((v * 16 + n) :: acc)) out rest.
Proof.
  intros acc v n out rest Hn.
  cbn [JSON.lex_from JSON.lex_step]. now rewrite (hex_digit_value n Hn).
Qed.

Lemma lex_unicode_escape :
  forall c acc out rest, c < 65536 ->
    JSON.lex_from (JSON.LString acc) out (JSON.unicode_escape c ++ rest)
    = JSON.lex_from (JSON.LString (c :: acc)) out rest.
Proof.
  intros c acc out rest Hc. unfold JSON.unicode_escape. cbn [app].
  change (JSON.lex_from (JSON.LString acc) out (92 :: 117 :: ?x))
    with (JSON.lex_from (JSON.LHex acc 4 0) out x).
  assert (H16 : forall x, x mod 16 < 16) by (intros; apply N.mod_lt; discriminate).
  rewrite !lex_hex_digit, lex_last_hex_digit by apply H16.
  now rewrite (nibbles_join c Hc).
Qed.

Lemma lex_escape_unit :
  forall c acc out rest, c < 65536 ->
    JSON.lex_from (JSON.LString acc) out (JSON.escape_unit c ++ rest)
    = JSON.lex_from (JSON.LString (c :: acc)) out rest.
Proof.
  intros c acc out rest Hc. unfold JSON.escape_unit.
  destruct (N.eqb_spec c 8); [subst; reflexivity|].
  destruct (N.eqb_spec c 9); [subst; reflexivity|].
  destruct (N.eqb_spec c 10); [subst; reflexivity|].
  destruct (N.eqb_spec c 12); [subst; reflexivity|].
  destruct (N.eqb_spec c 13); [subst; reflexivity|].
  destruct (N.eqb_spec c 34) as [|H34]; [subst; reflexivity|].
  destruct (N.eqb_spec c 92) as [|H92]; [subst; reflexivity|].
  destruct (N.ltb_spec c 32) as [|H32]; [now apply lex_unicode_escape|].
  destruct (Unicode.is_high_surrogate c || Unicode.is_low_surrogate c);
    [now apply lex_unicode_escape|].
  cbn [app JSON.lex_from JSON.lex_step].
  apply N.eqb_neq in H34, H92. apply N.ltb_ge in H32.
  now rewrite H34, H92, H32.
Qed.

Lemma lex_surrogate_pair :
  forall c d acc out rest,
    Unicode.is_high_surrogate c && Unicode.is_low_surrogate d = true ->
    JSON.lex_from (JSON.LString acc) out (c :: d :: rest)
    = JSON.lex_from (JSON.LString (d :: c :: acc)) out rest.
Proof.
  intros c d acc out rest H.
  apply andb_true_iff in H. destruct H as [Hc Hd].
  unfold Unicode.is_high_surrogate in Hc. unfold Unicode.is_low_surrogate in Hd.
  apply andb_true_iff in Hc, Hd.
  rewrite !N.leb_le in Hc, Hd.
  cbn [JSON.lex_from JSON.lex_step].
  assert (Hc34 : (c =? 34) = false) by (apply N.eqb_neq; lia).
  assert (Hc92 : (c =? 92) = false) by (apply N.eqb_neq; lia).
  assert (Hc32 : (c <? 32) = false) by (apply N.ltb_ge; lia).
  assert (Hd34 : (d =? 34) = false) by (apply N.eqb_neq; lia).
  assert (Hd92 : (d =? 92) = false) by (apply N.eqb_neq; lia).
  assert (Hd32 : (d <? 32) = false) by (apply N.ltb_ge; lia).
  rewrite Hc34, Hc92, Hc32. cbn [JSON.lex_from JSON.lex_step].
  now rewrite Hd34, Hd92, Hd32.
Qed.

(** Lists one and two elements at a time. *)
Lemma list_ind_pairs :
  forall (A : Type) (P : list A -> Prop),
    P [] -> (forall a, P [a]) ->
    (forall a b rest, P rest -> P (b :: rest) -> P (a :: b :: rest)) ->
    forall l, P l.
Proof.
  intros A P H0 H1 H2 l.
  enough (H : P l /\ forall a, P (a :: l)) by apply H.
  induction l as [|b rest [IH1 IH2]]; split; auto.
Qed.

Lemma lex_quote_units :
  forall s, Forall (fun c => c < 65536) s ->
    forall acc out rest,
      JSON.lex_from (JSON.LString acc) out (JSON.quote_units s ++ rest)
      = JSON.lex_from (JSON.LString (rev s ++ acc)) out rest.
Proof.
  induction s as [|a|a b s IH IHb] using list_ind_pairs;
    intros Hs acc out rest.
  - reflexivity.
  - inversion_clear Hs as [|? ? Ha _]. cbn [JSON.quote_units rev app].
    now apply lex_escape_unit.
  - inversion_clear Hs as [|? ? Ha Hs']. cbn [JSON.quote_units].
    destruct (Unicode.is_high_surrogate a && Unicode.is_low_surrogate b) eqn:E.
    + inversion_clear Hs' as [|? ? _ Hs].
      cbn [app]. rewrite (lex_surrogate_pair a b acc out _ E).
      rewrite (IH Hs). cbn [rev]. now rewrite <- !app_assoc.
    + rewrite <- app_assoc, (lex_escape_unit a acc out _ Ha).
      rewrite (IHb Hs'). cbn [rev]. now rewrite <- !app_assoc.
Qed.

(** A quoted string is read back as one string token. *)
Lemma lex_quote :
  forall s, Forall (fun c => c < 65536) s ->
    forall out rest,
      JSON.lex_from JSON.LStart out (JSON.quote s ++ rest)
      = JSON.lex_from JSON.LStart (JSON.TValue (JString s) :: out) rest.
Proof.
  intros s Hs out rest. unfold JSON.quote. rewrite <- !app_assoc.
  cbn [app].
  change (JSON.lex_from JSON.LStart out (34 :: ?x))
    with (JSON.lex_from (JSON.LString []) out x).
  rewrite (lex_quote_units s Hs). rewrite app_nil_r.
  cbn [app JSON.lex_from JSON.lex_step N.eqb Pos.eqb].
  now rewrite rev_involutive.
Qed.

Lemma parse_quote :
  forall s, Forall (fun c => c < 65536) s ->
    JSON.parse (JSON.quote s) = Returned (JString s).
Proof.
  intros s Hs. unfold JSON.parse, JSON.lex.
  rewrite <- (app_nil_r (JSON.quote s)), (lex_quote s Hs). reflexivity.
Qed.

Lemma lex_punctuation :
  forall out rest,
    JSON.lex_from JSON.LStart out (123 :: rest)
    = JSON.lex_from JSON.LStart (JSON.TLBrace :: out) rest
    /\ JSON.lex_from JSON.LStart out (125 :: rest)
       = JSON.lex_from JSON.LStart (JSON.TRBrace :: out) rest
    /\ JSON.lex_from JSON.LStart out (58 :: rest)
       = JSON.lex_from JSON.LStart (JSON.TColon :: out) rest
    /\ JSON.lex_from JSON.LStart out (44 :: rest)
       = JSON.lex_from JSON.LStart (JSON.TComma :: out) rest.
Proof. intros out rest. repeat split. Qed.

Lemma parse_credentials :
  forall (c : Login.Credentials),
    Forall (fun u => u < 65536) (Login.username c) ->
    Forall (fun u => u < 65536) (Login.password c) ->
    JSON.parse (JSON.stringify (Login.credentials_object c))
    = Returned (Login.credentials_object c).
Proof.
  intros [u p] Hu Hp. cbn [Login.username Login.password] in Hu, Hp.
  assert (Hk1 : Forall (fun u => u < 65536) (js "username"))
    by (vm_compute; repeat constructor).
  assert (Hk2 : Forall (fun u => u < 65536) (js "password"))
    by (vm_compute; repeat constructor).
  change (JSON.stringify
            (Login.credentials_object
               {| Login.username := u; Login.password := p |}))
    with ([123]
          ++ ((JSON.quote (js "username") ++ [58] ++ JSON.quote u)
              ++ [44] ++ (JSON.quote (js "password") ++ [58] ++ JSON.quote p))
          ++ [125]).
  unfold JSON.parse, JSON.lex. rewrite <- !app_assoc. cbn [app].
  rewrite (proj1 (lex_punctuation _ _)), (lex_quote _ Hk1).
  rewrite (proj1 (proj2 (proj2 (lex_punctuation _ _)))), (lex_quote _ Hu).
  rewrite (proj2 (proj2 (proj2 (lex_punctuation _ _)))), (lex_quote _ Hk2).
  rewrite (proj1 (proj2 (proj2 (lex_punctuation _ _)))), (lex_quote _ Hp).
  reflexivity.
Qed.

(** X8. The body of the login request is a JSON text that reads back as
    exactly the credentials: whatever code units the user name and the
    password hold (quotes, backslashes, control characters, surrogates),
    they are escaped so that parsing the body gives the object with these
    same two strings and nothing else. *)
Theorem login_body_reads_back :
  forall (c : Login.Credentials) (net : Network),
    Forall (fun u => u < 65536) (Login.username c) ->
    Forall (fun u => u < 65536) (Login.password c) ->
    exists o,
      requests (trace (Login.post c) net)
      = [(Api.base ++ js "/" ++ js "users/login", o)]
      /\ JSON.parse (body o)
         = Returned
             (JObject [(js "username", JString (Login.username c));
                       (js "password", JString (Login.password c))]).
Proof.
  intros c net Hu Hp. destruct (login_run c net) as [Htr _].
  rewrite Htr. eexists. split; [reflexivity|].
  cbn [body]. exact (parse_credentials c Hu Hp).
Qed.

Lemma login_body_reads_back_witness :
  let c := {| Login.username := jsq "al'ice";
              Login.password := jsq "','password':'x" |} in
  exists o,
    requests (trace (Login.post c) (always (js "ok")))
    = [(Api.base ++ js "/" ++ js "users/login", o)]
    /\ JSON.parse (body o)
       = Returned
           (JObject [(js "username", JString (jsq "al'ice"));
                     (js "password", JString (jsq "','password':'x"))]).
Proof.
  exact (login_body_reads_back
           {| Login.username := jsq "al'ice";
              Login.password := jsq "','password':'x" |}
           (always (js "ok"))
           ltac:(vm_compute; repeat constructor)
           ltac:(vm_compute; repeat constructor)).
Defined.

(** X9. The decoded value does not tell the fallback from a JSON string.
    A response text [s] that is not JSON decodes to the string [s], and so
    does the different text that is the JSON string literal of [s]: a
    caller of [req] that receives a string cannot know which of the two
    the server sent. *)
Theorem decode_fallback_is_ambiguous :
  forall (s : jsstring) (e : JSError),
    Forall (fun u => u < 65536) s ->
    JSON.parse s = Thrown e ->
    Api.decode s = JString s
    /\ Api.decode (JSON.stringify (JString s)) = JString s
    /\ JSON.stringify (JString s) <> s.
Proof.
  intros s e Hs He.
  assert (Hq : JSON.parse (JSON.stringify (JString s)) = Returned (JString s))
    by exact (parse_quote s Hs).
  unfold Api.decode. rewrite He, Hq. repeat split.
  intros Heq. rewrite Heq in Hq. congruence.
Qed.

Lemma decode_fallback_is_ambiguous_witness :
  Api.decode (js "Internal Server Error")
  = JString (js "Internal Server Error")
  /\ Api.decode (jsq "'Internal Server Error'")
     = JString (js "Internal Server Error")
  /\ jsq "'Internal Server Error'" <> js "Internal Server Error".
Proof.
  exact (decode_fallback_is_ambiguous (js "Internal Server Error") SyntaxError
           ltac:(vm_compute; repeat constructor) eq_refl).
Defined.

(* ================================================================== *)
(** * Further properties of the session hook *)

(** ** Objects: reading after writing *)

Lemma str_eqb_false_trans :
  forall a b c, str_eqb b c = true -> str_eqb a b = false -> str_eqb a c = false.
Proof.
  intros a b c Hbc Hab. apply str_eqb_eq in Hbc. now subst.
Qed.

Lemma lookup_obj_set_other :
  forall (V : Type) (o : list (jsstring * V)) k k' (v : V),
    str_eqb k k' = false -> lookup k (obj_set o k' v) = lookup k o.
Proof.
  induction o as [|[k'' v''] o IH]; intros k k' v Hk; cbn [obj_set lookup].
  - now rewrite Hk.
  - destruct (str_eqb k' k'') eqn:E; cbn [lookup].
    + now rewrite (str_eqb_false_trans k k' k'' E Hk).
    + destruct (str_eqb k k''); [reflexivity|]. now apply IH.
Qed.

(** A cookie that has been assigned is never assigned again. *)
Lemma add_pair_keeps :
  forall obj pair k v,
    lookup k obj = Some v -> lookup k (Cookie.add_pair obj pair) = Some v.
Proof.
  intros obj pair k v Hk. unfold Cookie.add_pair.
  destruct (Cookie.index_of_eq pair) as [i|]; [|exact Hk].
  match goal with
  | |- context [lookup ?key obj] => destruct (lookup key obj) eqn:E;
      [exact Hk|destruct (Cookie.is_inherited key); [exact Hk|];
       rewrite lookup_obj_set_other; [exact Hk|]];
      destruct (str_eqb k key) eqn:Ek; [|reflexivity];
      apply str_eqb_eq in Ek; congruence
  end.
Qed.

Lemma fold_add_pair_keeps :
  forall pairs obj k v,
    lookup k obj = Some v ->
    lookup k (fold_left Cookie.add_pair pairs obj) = Some v.
Proof.
  induction pairs as [|p pairs IH]; intros obj k v Hk; cbn [fold_left].
  - exact Hk.
  - apply IH. now apply add_pair_keeps.
Qed.

(** ** The first pair of a cookie header that starts with [jwt=] *)

Lemma split_pairs_first :
  forall s cur rest, Forall (fun c => (c =? 59) = false) s ->
    Cookie.split_pairs false cur (s ++ 59 :: rest)
    = (rev cur ++ s) :: Cookie.split_pairs true [] rest.
Proof.
  induction s as [|c s IH]; intros cur rest Hs; cbn [app Cookie.split_pairs].
  - cbn [N.eqb Pos.eqb]. now rewrite app_nil_r.
  - inversion_clear Hs as [|? ? Hc Hs']. rewrite Hc. cbn [andb].
    rewrite (IH _ _ Hs'). cbn [rev]. now rewrite <- app_assoc.
Qed.

(** Every string is a run without semicolon, followed by nothing or by a
    semicolon and more. *)
Lemma until_semicolon :
  forall (s : jsstring),
  exists s1, Forall (fun c => (c =? 59) = false) s1
             /\ (List.length s1 <= List.length s)%nat
             /\ (s = s1 \/ exists rest, s = s1 ++ 59 :: rest).
Proof.
  induction s as [|c s [s1 [H1 [Hlen Hs]]]].
  - exists []. repeat split; auto.
  - destruct (c =? 59) eqn:E.
    + apply N.eqb_eq in E. subst c. exists [].
      repeat split; [constructor|cbn; lia|right; now exists s].
    + exists (c :: s1). repeat split.
      * now constructor.
      * cbn. lia.
      * destruct Hs as [->|[rest ->]]; [now left|right; now exists rest].
Qed.

(** The value [cookie.parse] gives the cookie [jwt] when the header
    starts with [jwt=] and [t] runs up to the first semicolon: [t]
    trimmed, unquoted and percent-decoded. *)
Lemma jwt_first_pair :
  forall t more,
    lookup (js "jwt")
      (fold_left Cookie.add_pair more (Cookie.add_pair [] (js "jwt=" ++ t)))
    = Some (Cookie.tryDecode
              match Cookie.trim t with
              | c :: _ =>
                  if c =? 34 then Cookie.strip_quotes (Cookie.trim t)
                  else Cookie.trim t
              | [] => Cookie.trim t
              end).
Proof.
  intros t more. apply fold_add_pair_keeps.
  change (js "jwt=" ++ t) with (106 :: 119 :: 116 :: 61 :: t).
  unfold Cookie.add_pair.
  cbn [Cookie.index_of_eq N.eqb Pos.eqb firstn skipn].
  change (Cookie.trim [106; 119; 116]) with (js "jwt").
  reflexivity.
Qed.

(** ** Nothing the hook applies to the cookie value makes it longer *)

Lemma trim_start_length :
  forall s, (List.length (Cookie.trim_start s) <= List.length s)%nat.
Proof.
  induction s as [|c s IH]; cbn [Cookie.trim_start]; [lia|].
  destruct (Cookie.is_space c); cbn [List.length]; lia.
Qed.

Lemma trim_length :
  forall s, (List.length (Cookie.trim s) <= List.length s)%nat.
Proof.
  intros s. unfold Cookie.trim. rewrite length_rev.
  etransitivity; [apply trim_start_length|].
  rewrite length_rev. apply trim_start_length.
Qed.

Lemma strip_quotes_length :
  forall s, (List.length (Cookie.strip_quotes s) <= List.length s)%nat.
Proof.
  intros s. unfold Cookie.strip_quotes.
  assert (H : forall l : jsstring,
             (List.length (removelast l) <= List.length l)%nat).
  { induction l as [|a [|b l] IH]; cbn [removelast List.length] in *; lia. }
  etransitivity; [apply H|]. destruct s; cbn; lia.
Qed.

Lemma utf16_length :
  forall cp, (List.length (Unicode.utf16 cp) <= 2)%nat.
Proof.
  intros cp. unfold Unicode.utf16. destruct (cp <? 65536); cbn; lia.
Qed.

Lemma uri_step_length :
  forall st p out c st' p' out',
    URI.step st p out c = Some (st', p', out') ->
    (List.length out'
     + match st' with URI.Plain => 0 | URI.Percent => 1 | URI.Digit _ => 2 end
     <= List.length out
        + match st with URI.Plain => 0 | URI.Percent => 1 | URI.Digit _ => 2 end
        + 1)%nat.
Proof.
  intros st p out c st' p' out' H. unfold URI.step in H.
  destruct st as [| |hi].
  - destruct (c =? 37); [injection H as <- <- <-; lia|].
    destruct p; [discriminate|]. injection H as <- <- <-. cbn. lia.
  - destruct (JSON.hex_value c); [|discriminate].
    injection H as <- <- <-. lia.
  - destruct (JSON.hex_value c) as [lo|]; [|discriminate].
    destruct (URI.octet_step p out (hi * 16 + lo)) as [[p1 out1]|] eqn:E;
      [|discriminate].
    injection H as <- <- <-. unfold URI.octet_step in E.
    destruct p as [[octets todo]|].
    + destruct todo as [|[|todo]].
      * injection E as <- <-. lia.
      * destruct (Unicode.code_point (octets ++ [hi * 16 + lo])) as [cp|];
          [|discriminate].
        injection E as <- <-. rewrite length_app, length_rev.
        pose proof (utf16_length cp). lia.
      * injection E as <- <-. lia.
    + destruct (hi * 16 + lo <? 128).
      * injection E as <- <-. cbn. lia.
      * destruct (URI.sequence_length (hi * 16 + lo)); [|discriminate].
        injection E as <- <-. lia.
Qed.

Lemma decode_from_length :
  forall s st p out r,
    URI.decode_from st p out s = Returned r ->
    (List.length r
     <= List.length out
        + match st with URI.Plain => 0 | URI.Percent => 1 | URI.Digit _ => 2 end
        + List.length s)%nat.
Proof.
  induction s as [|c s IH]; intros st p out r H; cbn [URI.decode_from] in H.
  - destruct st; [|discriminate..]. destruct p; [discriminate|].
    injection H as <-. rewrite length_rev. cbn. lia.
  - destruct (URI.step st p out c) as [[[st' p'] out']|] eqn:E; [|discriminate].
    apply IH in H. apply uri_step_length in E. cbn [List.length]. lia.
Qed.

Lemma tryDecode_length :
  forall s, (List.length (Cookie.tryDecode s) <= List.length s)%nat.
Proof.
  intros s. unfold Cookie.tryDecode, URI.decodeURIComponent.
  destruct (URI.decode_from URI.Plain None [] s) as [r|e] eqn:E; [|lia].
  apply decode_from_length in E. cbn in E. lia.
Qed.

Lemma sextets_length :
  forall s, (List.length (Buffer.sextets s) <= List.length s)%nat.
Proof.
  induction s as [|c s IH]; cbn [Buffer.sextets List.length]; [lia|].
  destruct (c mod 256 =? 61); [cbn; lia|].
  destruct (Buffer.unbase64 (c mod 256)); cbn [List.length]; lia.
Qed.

Lemma list_ind4 :
  forall (A : Type) (P : list A -> Prop),
    P [] -> (forall a, P [a]) -> (forall a b, P [a; b]) ->
    (forall a b c, P [a; b; c]) ->
    (forall a b c d rest, P rest -> P (a :: b :: c :: d :: rest)) ->
    forall l, P l.
Proof.
  intros A P H0 H1 H2 H3 H4. fix IH 1.
  intros [|a [|b [|c [|d rest]]]];
    [apply H0 | apply H1 | apply H2 | apply H3 | apply H4; apply IH].
Qed.

Lemma bytes_of_sextets_length :
  forall l,
    (4 * List.length (Buffer.bytes_of_sextets l) <= 3 * List.length l)%nat.
Proof.
  induction l as [|a|a b|a b c|a b c d rest IH] using list_ind4;
    cbn [Buffer.bytes_of_sextets List.length]; lia.
Qed.

Lemma utf8_decode_length_upto :
  forall n bs, (List.length bs <= n)%nat ->
    (List.length (Unicode.utf8_decode bs) <= List.length bs)%nat.
Proof.
  induction n as [|n IH]; intros [|b0 r0] H; cbn [List.length] in H;
    try (cbn; lia).
  cbn [Unicode.utf8_decode].
  repeat match goal with
         | |- context [if ?b then _ else _] => destruct b
         | |- context [match ?l with [] => _ | _ :: _ => _ end] =>
             is_var l; destruct l
         end;
    cbn [List.length app] in *; rewrite ?length_app;
    try match goal with
        | |- context [Unicode.utf16 ?cp] => pose proof (utf16_length cp)
        end;
    try match goal with
        | |- context [Unicode.utf8_decode ?x] =>
            pose proof (IH x ltac:(cbn [List.length]; lia));
            cbn [List.length] in *
        end;
    lia.
Qed.

Lemma utf8_decode_length :
  forall bs, (List.length (Unicode.utf8_decode bs) <= List.length bs)%nat.
Proof. intros bs. now apply (utf8_decode_length_upto (List.length bs)). Qed.

Lemma utf8_decode_nonempty :
  forall b bs, Unicode.utf8_decode (b :: bs) <> [].
Proof.
  intros b bs. cbn [Unicode.utf8_decode].
  repeat match goal with
         | |- context [if ?b then _ else _] => destruct b
         | |- context [match ?l with [] => _ | _ :: _ => _ end] =>
             is_var l; destruct l
         end;
    try discriminate;
    unfold Unicode.utf16; destruct (_ <? 65536); discriminate.
Qed.

(** The session string has at most three quarters of the length of the
    cookie value it is decoded from. *)
Lemma session_string_length :
  forall v,
    (4 * List.length (Buffer.to_utf8_string (Buffer.from_base64 v))
     <= 3 * List.length v)%nat.
Proof.
  intros v. unfold Buffer.to_utf8_string, Buffer.from_base64.
  pose proof (utf8_decode_length (Buffer.bytes_of_sextets (Buffer.sextets v))).
  pose proof (bytes_of_sextets_length (Buffer.sextets v)).
  pose proof (sextets_length v). lia.
Qed.

(** How [getSession] runs: the cookies of the header, then the [jwt]
    cookie decoded when it is a non-empty string. *)
Lemma getSession_run :
  forall (h : list (jsstring * jsstring)),
    Hooks.getSession h
    = Returned
        {| Hooks.jwt :=
             match lookup (js "jwt")
                     (fold_left Cookie.add_pair
                        (Cookie.split_pairs false []
                           match lookup (js "cookie") h with
                           | Some c => c
                           | None => []
                           end) []) with
             | Some v =>
                 if truthy (JString v)
                 then Some (Buffer.to_utf8_string (Buffer.from_base64 v))
                 else Some v
             | None => None
             end |}.
Proof.
  intros h. unfold Hooks.getSession. now rewrite cookie_header_or_empty.
Qed.

(** X10. What the hook puts in the session is never the cookie value
    itself: for every headers object with a non-empty [jwt] cookie value
    [v], the session's [jwt] is a string of at most three quarters of the
    length of [v], so it differs from [v]. *)
Theorem getSession_jwt_shorter :
  forall (h : list (jsstring * jsstring)),
  exists cookies session,
    Cookie.parse
      (JString match lookup (js "cookie") h with
               | Some c => c
               | None => []
               end)
    = Returned cookies
    /\ Hooks.getSession h = Returned session
    /\ forall v, lookup (js "jwt") cookies = Some v ->
         exists s, Hooks.jwt session = Some s
                   /\ (4 * List.length s <= 3 * List.length v)%nat
                   /\ (v <> [] -> s <> v).
Proof.
  intros h. eexists. eexists.
  split; [reflexivity|]. split; [apply getSession_run|].
  intros v Hv. cbn [Hooks.jwt]. rewrite Hv.
  destruct v as [|c v].
  - exists []. cbn. repeat split; [lia|congruence].
  - cbn [truthy]. eexists. split; [reflexivity|].
    pose proof (session_string_length (c :: v)) as Hlen.
    split; [exact Hlen|]. intros _ Heq. rewrite Heq in Hlen.
    cbn [List.length] in Hlen. lia.
Qed.

(** The cookies of a header that starts with [jwt=]: the [jwt] cookie is
    there and its value is no longer than what follows [jwt=]. *)
Lemma jwt_of_header :
  forall t,
  exists v,
    lookup (js "jwt")
      (fold_left Cookie.add_pair
         (Cookie.split_pairs false [] (js "jwt=" ++ t)) [])
    = Some v
    /\ (List.length v <= List.length t)%nat.
Proof.
  intros t.
  assert (Hval : forall t1,
             (List.length
                (Cookie.tryDecode
                   match Cookie.trim t1 with
                   | c :: _ =>
                       if (c =? 34)%N then Cookie.strip_quotes (Cookie.trim t1)
                       else Cookie.trim t1
                   | [] => Cookie.trim t1
                   end) <= List.length t1)%nat).
  { intros t1. etransitivity; [apply tryDecode_length|].
    generalize (trim_length t1) (strip_quotes_length (Cookie.trim t1)).
    destruct (Cookie.trim t1) as [|c s]; intros Htrim Hstrip; [exact Htrim|].
    destruct (c =? 34); [|exact Htrim].
    eapply Nat.le_trans; [exact Hstrip|exact Htrim]. }
  destruct (until_semicolon t) as [t1 [H1 [Hlen [->|[rest ->]]]]].
  - eexists. split.
    + rewrite split_pairs_single by (repeat constructor; exact H1).
      cbn [rev app fold_left]. apply (jwt_first_pair t1 []).
    + apply Hval.
  - eexists. split.
    + rewrite app_assoc.
      rewrite split_pairs_first by (repeat constructor; exact H1).
      cbn [rev app fold_left]. apply jwt_first_pair.
    + etransitivity; [apply Hval|]. rewrite length_app. apply Nat.le_add_r.
Qed.

(** X11. The cookie the login endpoint sets is never read back as the
    token.  When the login response carries the non-empty token [t], the
    reply sets the cookie pair [jwt=t]; a request that presents this pair
    as its cookie header gets a session whose [jwt] is a string strictly
    shorter than [t], and so not [t]: the endpoint writes the token as it
    is and the hook reads it as Base64. *)
Theorem login_cookie_not_read_back :
  forall (c : Login.Credentials) (net : Network) (r : Response)
         (props : list (jsstring * JSValue)) (t : jsstring),
    answered (Login.post c) net r ->
    Api.decode (text r) = JObject props ->
    lookup (js "token") props = Some (JString t) ->
    t <> [] ->
    exists reply s,
      result (Login.post c) net = Returned reply
      /\ Login.reply_headers reply
         = [(js "set-cookie", (js "jwt=" ++ t) ++ js "; Path=/; HttpOnly")]
      /\ Hooks.getSession [(js "cookie", js "jwt=" ++ t)]
         = Returned {| Hooks.jwt := Some s |}
      /\ (List.length s < List.length t)%nat
      /\ s <> t.
Proof.
  intros c net r props t Hnet Hdec Htok Ht.
  destruct (login_run c net) as [_ Hres].
  rewrite (login_answer c net r Hnet), Hdec in Hres.
  cbn [get_token] in Hres. rewrite Htok in Hres.
  destruct (jwt_of_header t) as [v [Hv Hlen]].
  assert (Hsession :
            exists s, Hooks.getSession [(js "cookie", js "jwt=" ++ t)]
                      = Returned {| Hooks.jwt := Some s |}
                      /\ (List.length s < List.length t)%nat).
  { rewrite getSession_run.
    change (lookup (js "cookie") [(js "cookie", js "jwt=" ++ t)])
      with (Some (js "jwt=" ++ t)).
    cbv iota. rewrite Hv.
    assert (0 < List.length t)%nat by (destruct t; [congruence|cbn; lia]).
    destruct v as [|u v].
    - exists []. split; [reflexivity|]. cbn. lia.
    - cbn [truthy]. eexists. split; [reflexivity|].
      pose proof (session_string_length (u :: v)). lia. }
  destruct Hsession as [s [Hs Hlt]].
  eexists. exists s. split; [exact Hres|].
  split; [cbn [Login.reply_headers template to_string];
          now rewrite <- app_assoc|].
  split; [exact Hs|]. split; [exact Hlt|].
  intros ->. lia.
Qed.

Lemma login_cookie_not_read_back_witness :
  exists reply s,
    result (Login.post {| Login.username := js "alice";
                          Login.password := js "secret" |})
      (always (jsq "{'token':'abc123'}"))
    = Returned reply
    /\ Login.reply_headers reply
       = [(js "set-cookie", js "jwt=abc123; Path=/; HttpOnly")]
    /\ Hooks.getSession [(js "cookie", js "jwt=abc123")]
       = Returned {| Hooks.jwt := Some s |}
    /\ (List.length s < 6)%nat
    /\ s <> js "abc123".
Proof.
  exact (login_cookie_not_read_back
           {| Login.username := js "alice"; Login.password := js "secret" |}
           (always (jsq "{'token':'abc123'}"))
           {| text := jsq "{'token':'abc123'}" |}
           [(js "token", JString (js "abc123"))] (js "abc123")
           (fun _ _ _ => eq_refl) eq_refl eq_refl ltac:(discriminate)).
Defined.

(** X12. The first [jwt] cookie wins.  When the cookie header starts with
    a [jwt] pair, whatever follows the first semicolon (other cookies, a
    second [jwt] cookie) has no effect on the session: [cookie.parse]
    assigns each name once. *)
Theorem getSession_first_jwt_wins :
  forall (h h' : list (jsstring * jsstring)) (t rest : jsstring),
    Forall (fun c => c <> 59) t ->
    lookup (js "cookie") h = Some (js "jwt=" ++ t ++ 59 :: rest) ->
    lookup (js "cookie") h' = Some (js "jwt=" ++ t) ->
    Hooks.getSession h = Hooks.getSession h'.
Proof.
  intros h h' t rest Ht Hh Hh'.
  assert (H1 : Forall (fun c => (c =? 59) = false) (js "jwt=" ++ t)).
  { repeat constructor. eapply Forall_impl; [|exact Ht].
    intros c Hc. now apply N.eqb_neq. }
  rewrite !getSession_run, Hh, Hh'.
  rewrite app_assoc, split_pairs_first by exact H1.
  rewrite split_pairs_single by exact H1.
  pose proof (jwt_first_pair t (Cookie.split_pairs true [] rest)) as Ha.
  pose proof (jwt_first_pair t []) as Hb.
  cbn [rev app fold_left] in *.
  now rewrite Ha, Hb.
Qed.

Lemma getSession_first_jwt_wins_witness :
  Hooks.getSession [(js "cookie", js "jwt=YWJj; theme=dark; jwt=eHl6")]
  = Hooks.getSession [(js "cookie", js "jwt=YWJj")].
Proof.
  exact (getSession_first_jwt_wins
           [(js "cookie", js "jwt=YWJj; theme=dark; jwt=eHl6")]
           [(js "cookie", js "jwt=YWJj")]
           (js "YWJj") (js " theme=dark; jwt=eHl6")
           ltac:(let l := eval vm_compute in (js "YWJj") in
                 change (Forall (fun c => c <> 59) l);
                 repeat (apply Forall_cons; [discriminate|]);
                 apply Forall_nil)
           eq_refl eq_refl).
Defined.

(* ================================================================== *)
(** * Properties of the layout *)

Lemma bytes_of_sextets_empty :
  forall l, Buffer.bytes_of_sextets l = [] <-> (List.length l < 2)%nat.
Proof.
  intros [|a [|b [|c [|d l]]]]; cbn [Buffer.bytes_of_sextets List.length];
    split; intros H; try reflexivity; try discriminate; lia.
Qed.

(** X13. Who the layout takes for signed in.  With the session the hook
    derives from the request, the layout renders the account menu exactly
    when the request has a [jwt] cookie whose value holds at least two
    Base64 digits before its first [=]; otherwise it renders the link to
    the login page.  Nothing else about the cookie is looked at. *)
Theorem layout_signed_in_iff :
  forall (h : list (jsstring * jsstring)) (page_path : jsstring),
  exists cookies session,
    Cookie.parse
      (JString match lookup (js "cookie") h with
               | Some c => c
               | None => []
               end)
    = Returned cookies
    /\ Hooks.getSession h = Returned session
    /\ (Layout.signed_in (Layout.load page_path session) = true
        <-> exists v, lookup (js "jwt") cookies = Some v
                      /\ (2 <= List.length (Buffer.sextets v))%nat).
Proof.
  intros h page_path. eexists. eexists.
  split; [reflexivity|]. split; [apply getSession_run|].
  unfold Layout.signed_in, Layout.load. cbn [Layout.jwt Hooks.jwt].
  match goal with
  | |- context [lookup (js "jwt") ?cs] => destruct (lookup (js "jwt") cs) as [v|]
  end.
  - destruct v as [|c v].
    + cbn [truthy]. split; [discriminate|].
      intros [v [Hv Hlen]]. injection Hv as <-. cbn in Hlen. lia.
    + cbn [truthy]. unfold Buffer.to_utf8_string, Buffer.from_base64.
      pose proof (bytes_of_sextets_empty (Buffer.sextets (c :: v))) as Hb.
      destruct (Buffer.bytes_of_sextets (Buffer.sextets (c :: v)))
        as [|b bs] eqn:E.
      * cbn [Unicode.utf8_decode]. split; [discriminate|].
        intros [v' [Hv Hlen]]. injection Hv as <-.
        assert (List.length (Buffer.sextets (c :: v)) < 2)%nat
          by now apply Hb.
        lia.
      * pose proof (utf8_decode_nonempty b bs) as Hne.
        destruct (Unicode.utf8_decode (b :: bs)); [congruence|].
        split; [|reflexivity]. intros _. exists (c :: v).
        split; [reflexivity|].
        destruct (Nat.lt_ge_cases
                    (List.length (Buffer.sextets (c :: v))) 2) as [Hlt|Hge];
          [|exact Hge].
        apply Hb in Hlt. discriminate.
  - split; [discriminate|]. intros [v [Hv _]]. discriminate.
Qed.

(** X14. Signing out navigates only after a JSON answer.  In every run
    [signOut] makes one call and no more, a POST to the relative address
    [users/logout] with credentials included, a [Content-Type] header and
    no [Authorization] header.  When that call resolves with a body that
    parses as JSON, the call is followed by [goto('/')] and nothing else;
    in every other case the call is all that happens, [signOut] rejects
    and the page stays.  In particular an empty response body, which is no
    JSON text, keeps the user on the page. *)
Theorem signOut_navigates_iff_json :
  forall (net : Layout.Browser),
    let url := js "users/logout" in
    let init := {| Layout.init_method := js "POST";
                   Layout.init_credentials := js "include";
                   Layout.init_headers :=
                     [(js "Content-Type", js "application/json")] |} in
    lookup (js "Authorization") (Layout.init_headers init) = None
    /\ (((exists r v, net url init = Returned r
                      /\ JSON.parse (text r) = Returned v)
         /\ Layout.signOut net
            = ([Layout.Request url init; Layout.Goto (js "/")], Returned tt))
        \/ (~ (exists r v, net url init = Returned r
                           /\ JSON.parse (text r) = Returned v)
            /\ exists e,
                 Layout.signOut net
                 = ([Layout.Request url init], Thrown e)))
    /\ (forall r, net url init = Returned r -> text r = [] ->
          Layout.signOut net
          = ([Layout.Request url init], Thrown SyntaxError)).
Proof.
  intros net url init. unfold Layout.signOut. fold url. fold init.
  split; [reflexivity|].
  destruct (net url init) as [r|e] eqn:Hnet;
    [destruct (JSON.parse (text r)) as [v|e] eqn:Hparse|]; split.
  - left. split; [now exists r, v|reflexivity].
  - intros r' Hr' Ht. injection Hr' as <-. rewrite Ht in Hparse.
    discriminate.
  - right. split; [|now exists e].
    intros [r' [v [Hr' Hv]]]. injection Hr' as <-. congruence.
  - intros r' Hr' Ht. injection Hr' as <-. rewrite Ht in Hparse.
    vm_compute in Hparse. now injection Hparse as <-.
  - right. split; [|now exists e].
    intros [r [v [Hr _]]]. discriminate.
  - discriminate.
Qed.

(* ================================================================== *)
(** * The hook on other spellings of Base64 *)

Lemma sextets_cons :
  forall c a b,
    Buffer.sextets a = Buffer.sextets b ->
    Buffer.sextets (c :: a) = Buffer.sextets (c :: b).
Proof. intros c a b H. cbn [Buffer.sextets]. now rewrite H. Qed.

Lemma sextets_url_safe :
  forall s, Buffer.sextets (url_safe s) = Buffer.sextets s.
Proof.
  induction s as [|c s IH]; [reflexivity|].
  unfold url_safe in *. cbn [map].
  destruct (N.eqb_spec c 43) as [->|_];
    [cbn [Buffer.sextets]; now rewrite IH|].
  destruct (N.eqb_spec c 47) as [->|_];
    [cbn [Buffer.sextets]; now rewrite IH|].
  now apply sextets_cons.
Qed.

Lemma digit_not_padding : forall n, (Base64.digit n =? 61) = false.
Proof.
  intros n. apply N.eqb_neq. unfold Base64.digit.
  destruct (N.ltb_spec n 26); [lia|].
  destruct (N.ltb_spec n 52); [lia|].
  destruct (N.ltb_spec n 62); [lia|].
  destruct (n =? 62); lia.
Qed.

Lemma sextets_unpadded :
  forall bs,
    Buffer.sextets (unpadded (Base64.encode bs))
    = Buffer.sextets (Base64.encode bs).
Proof.
  unfold unpadded.
  induction bs as [|a|a b|a b c rest IH] using list_ind3;
    cbn [Base64.encode filter]; rewrite ?digit_not_padding;
    cbn [negb N.eqb Pos.eqb filter];
    repeat apply sextets_cons; try reflexivity.
  exact IH.
Qed.

(** A cookie value without semicolon, percent sign, double quote or white
    space is handed back by [cookie.parse] as it is. *)
Lemma jwt_plain_value :
  forall v,
    Forall (fun c => (c =? 59) = false /\ (c =? 37) = false
                     /\ (c =? 34) = false /\ Cookie.is_space c = false) v ->
    lookup (js "jwt")
      (fold_left Cookie.add_pair
         (Cookie.split_pairs false [] (js "jwt=" ++ v)) [])
    = Some v.
Proof.
  intros v Hv.
  assert (Hsemi : Forall (fun c => (c =? 59) = false) v)
    by (eapply Forall_impl; [|exact Hv]; intros c Hc; apply Hc).
  assert (Hpct : Forall (fun c => (c =? 37) = false) v)
    by (eapply Forall_impl; [|exact Hv]; intros c Hc; apply Hc).
  assert (Hsp : Forall (fun c => Cookie.is_space c = false) v)
    by (eapply Forall_impl; [|exact Hv]; intros c Hc; apply Hc).
  rewrite split_pairs_single by (repeat constructor; exact Hsemi).
  pose proof (jwt_first_pair v []) as H.
  cbn [rev app fold_left] in *. rewrite H.
  rewrite trim_plain by exact Hsp.
  destruct v as [|c v']; [reflexivity|].
  inversion_clear Hv as [|? ? [_ [_ [Hq _]]] _]. rewrite Hq.
  now rewrite tryDecode_plain by exact Hpct.
Qed.

Lemma url_safe_unpadded_plain :
  forall bs,
    Forall (fun c => (c =? 59) = false /\ (c =? 37) = false
                     /\ (c =? 34) = false /\ Cookie.is_space c = false)
      (url_safe (unpadded (Base64.encode bs))).
Proof.
  intros bs. apply Forall_forall. intros c Hc.
  unfold url_safe in Hc. apply in_map_iff in Hc.
  destruct Hc as [d [Hd Hin]].
  unfold unpadded in Hin. apply filter_In in Hin. destruct Hin as [Hin _].
  pose proof (encode_alphabet bs) as Hall.
  rewrite Forall_forall in Hall. specialize (Hall d Hin).
  destruct (N.eqb_spec d 43); [subst c; repeat split|].
  destruct (N.eqb_spec d 47); [subst c; repeat split|].
  subst c. destruct (alphabet_plain d Hall) as (H1 & H2 & H3 & H4).
  repeat split; assumption.
Qed.

(** X15. The hook does not insist on canonical Base64.  For a token [t]
    of printable ASCII, the cookie [jwt=] followed by the Base64 text of
    [t] with the padding left off and written in the URL-safe alphabet
    gives the session [{ jwt: t }] as well: the decoder stops at padding
    but does not require it, and reads [-] and [_] as [+] and [/]. *)
Theorem getSession_lenient_base64 :
  forall (h : list (jsstring * jsstring)) (t : jsstring),
    Forall Base64.printable t ->
    lookup (js "cookie") h
    = Some (js "jwt=" ++ url_safe (unpadded (Base64.of_string t))) ->
    Hooks.getSession h = Returned {| Hooks.jwt := Some t |}.
Proof.
  intros h t Ht Hh.
  assert (H128 : Forall (fun c => c < 128) t)
    by (eapply Forall_impl; [|exact Ht]; unfold Base64.printable; intros; lia).
  assert (H256 : Forall (fun c => c < 256) t)
    by (eapply Forall_impl; [|exact Ht]; unfold Base64.printable; intros; lia).
  unfold Base64.of_string in Hh. rewrite (utf8_encode_ascii t H128) in Hh.
  rewrite getSession_run, Hh.
  rewrite (jwt_plain_value _ (url_safe_unpadded_plain t)).
  assert (Hdec : Buffer.to_utf8_string
                   (Buffer.from_base64 (url_safe (unpadded (Base64.encode t))))
                 = t).
  { unfold Buffer.to_utf8_string, Buffer.from_base64.
    rewrite sextets_url_safe, sextets_unpadded.
    change (Buffer.bytes_of_sextets (Buffer.sextets (Base64.encode t)))
      with (Buffer.from_base64 (Base64.encode t)).
    now rewrite (from_base64_encode t H256), (utf8_decode_ascii t H128). }
  rewrite Hdec.
  destruct (url_safe (unpadded (Base64.encode t))) as [|c v] eqn:E;
    cbn [truthy]; [|reflexivity].
  now rewrite <- Hdec.
Qed.

Lemma getSession_lenient_base64_witness :
  Hooks.getSession [(js "cookie", js "jwt=fn5-Pw")]
  = Returned {| Hooks.jwt := Some (js "~~~?") |}.
Proof.
  exact (getSession_lenient_base64
           [(js "cookie", js "jwt=fn5-Pw")] (js "~~~?")
           ltac:(let l := eval vm_compute in (js "~~~?") in
                 change (Forall Base64.printable l);
                 repeat (apply Forall_cons;
                         [unfold Base64.printable; lia|]);
                 apply Forall_nil)
           eq_refl).
Defined.

(* ================================================================== *)
(** * Every reply of the login endpoint sets the cookie *)

(** X16. The login endpoint has no path that returns without a cookie.
    Whenever it returns a reply, the network has answered its call with
    some response, the reply's body is that response decoded, and the
    reply's only header is [set-cookie] with a value of the form
    [jwt=...; Path=/; HttpOnly]: a failed login overwrites the [jwt]
    cookie just as a successful one does. *)
Theorem login_reply_always_sets_cookie :
  forall (c : Login.Credentials) (net : Network) (reply : Login.Reply),
    result (Login.post c) net = Returned reply ->
    exists r value,
      answered (Login.post c) net r
      /\ Login.reply_body reply = Api.decode (text r)
      /\ Login.reply_headers reply
         = [(js "set-cookie", js "jwt=" ++ value ++ js "; Path=/; HttpOnly")].
Proof.
  intros c net reply Hreply.
  destruct (login_run c net) as [Htr Hres]. rewrite Hres in Hreply.
  match type of Hreply with
  | context [net ?u ?o] => destruct (net u o) as [r|e] eqn:Hnet
  end; [|discriminate].
  destruct (get_token (Api.decode (text r))) as [token|e]; [|discriminate].
  destruct (template token) as [value|e]; [|discriminate].
  injection Hreply as <-.
  exists r, value. repeat split.
  intros url o Hin. rewrite Htr in Hin. cbn [requests In] in Hin.
  destruct Hin as [Hin|[]]. injection Hin as <- <-. exact Hnet.
Qed.

Lemma login_reply_always_sets_cookie_witness :
  exists r value,
    answered (Login.post {| Login.username := js "alice";
                            Login.password := js "wrong" |})
      (always (js "[403]")) r
    /\ JArray [JNumber (Number.of_decimal false 403 0)]
       = Api.decode (text r)
    /\ [(js "set-cookie", js "jwt=undefined; Path=/; HttpOnly")]
       = [(js "set-cookie", js "jwt=" ++ value ++ js "; Path=/; HttpOnly")].
Proof.
  exact (login_reply_always_sets_cookie
           {| Login.username := js "alice"; Login.password := js "wrong" |}
           (always (js "[403]"))
           {| Login.reply_headers :=
                [(js "set-cookie", js "jwt=undefined; Path=/; HttpOnly")];
              Login.reply_body :=
                JArray [JNumber (Number.of_decimal false 403 0)] |}
           eq_refl).
Defined.
